(** * loopback-connector-minio: the connector and its forwarding methods

    A shallow embedding of [lib/minio.js].  The connector object, the data
    source it is attached to and the promise a forwarding method hands back
    are explicit state; the storage client (the [minio] package) and the few
    host functions the code calls ([new minio.Client], [JSON.stringify],
    [Date]) are parameters.

    Diagnostic output ([debug(...)] and [g.error(...)]) is not part of the
    model: no value, branch or state of the connector depends on it. *)

From stdpp Require Import gmap strings list fin_maps.
From Stdlib Require Import ZArith.

Open Scope string_scope.

#[local] Set Warnings "-register-all".

(** ** JavaScript values *)

(** The values that flow through the connector: settings, method arguments,
    what the client hands to a completion callback or returns, errors.
    [VFun] is a function object, [VHost] any other host object that is not a
    thenable (a stream, an event emitter, a [Date]), [VError] an [Error]
    instance.  [VPromise] is a thenable: a promise object, or any other
    object with a [then] method, which [resolve] treats as it does a
    promise; it is given by the state of the promise it is, or of a promise
    made to follow it.  The objects written [VObj] are those that are no
    thenable.

    A promise is given in the state it ends in.  [Pending]: nothing has
    resolved it.  [Locked]: it has been resolved with a promise that never
    settles, so it never settles either, whatever is done to it later. *)
Inductive value : Type :=
| VUndefined
| VNull
| VBool (b : bool)
| VNum (n : Z)
| VStr (s : string)
| VArr (items : list value)
| VObj (props : list (string * value))
| VFun (f : nat)
| VHost (h : nat)
| VError (name message : string)
| VPromise (p : promise)
with promise : Type :=
| Pending
| Fulfilled (v : value)
| Rejected (e : value)
| Locked.

#[global] Instance value_inhabited : Inhabited value := populate VUndefined.

(** [if (v)]: JavaScript truthiness. *)
Definition truthy (v : value) : bool :=
  match v with
  | VUndefined | VNull => false
  | VBool b => b
  | VNum n => negb (n =? 0)%Z
  | VStr s => negb (String.eqb s "")
  | _ => true
  end.

(** [v === undefined] *)
Definition is_undefined (v : value) : bool :=
  match v with VUndefined => true | _ => false end.

(** The [TypeError] the engine raises when a property of [undefined] is read
    or a non-function is called. *)
Definition TypeError (message : string) : value := VError "TypeError" message.

(** A call either returns or throws. *)
Inductive completion (A : Type) : Type :=
| Normal (a : A)
| Throw (e : value).
Arguments Normal {A} a.
Arguments Throw {A} e.

(** Binding of the [i]-th formal parameter: the [i]-th actual argument, or
    [undefined] when the caller passed fewer. *)
Definition param (i : nat) (args : list value) : value := default VUndefined (args !! i).

(** The first [n] formal parameters as bound from [args]. *)
Definition params (n : nat) (args : list value) : list value :=
  (λ i, param i args) <$> seq 0 n.

(** ** The storage client (external) *)

(** A call [client.method(arguments...)], with or without a trailing
    completion callback. *)
Record request : Type := Request {
  method : string;
  arguments : list value;
  with_callback : bool;
}.

(** What the client does with a call: it may invoke the completion callback
    with [(err, data)] before it returns ([during]), it returns a value or
    throws ([returns]), and it may invoke the callback after it has returned
    ([later]).  It may also call functions it finds among the arguments or
    inside them ([called], function and arguments).  A call to a method the client does
    not have throws.  The client does not catch what the completion callback
    throws: an exception of the callback during the call leaves the call. *)
Record reply : Type := Reply {
  during : list (value * value);
  returns : completion value;
  later : list (value * value);
  called : list (nat * list value);
}.

(** Whether the function [f] is [v], or is found in [v] through its items
    and the values of its properties (in an option bag, say). *)
Fixpoint inside (f : nat) (v : value) : bool :=
  match v with
  | VFun g => Nat.eqb f g
  | VArr items => existsb (inside f) items
  | VObj props => existsb (λ kv, let '(_, x) := kv in inside f x) props
  | _ => false
  end.

(** Whether the function [f] is among [args] or inside one of them. *)
Definition handed_over (f : nat) (args : list value) : bool :=
  existsb (inside f) args.

(** The calls of [called] that are of a function handed over with the
    request: the client can call no other function of the caller on account
    of this call. *)
Definition forwarded_calls (rq : request) (rp : reply) : list (value * list value) :=
  (λ call, (VFun call.1, call.2))
    <$> filter (λ call : nat * list value, Is_true (handed_over call.1 (arguments rq)))
          (called rp).

(** The client handle.  [Policy] is the outcome of [new client.Policy()]
    followed by [setExpires], [setBucketName], [setKey] and
    [setKeyStartsWith] on the new object, as a function of the four setter
    arguments; a client without a [Policy] constructor throws there. *)
Record Client : Type := {
  respond : request → reply;
  Policy : list value → completion unit;
}.

(** What a call reported to its caller: the first thing the caller gets to
    see.  With a callback, that is the first completion ([err] truthy: a
    failure) or the exception of the call; without one, what the call
    returned or threw.  [None]: the call never completes. *)
Definition completion_verdict (c : value * value) : value + value :=
  if truthy c.1 then inl c.1 else inr c.2.

Definition verdict (rq : request) (rp : reply) : option (value + value) :=
  if with_callback rq then
    match during rp with
    | c :: _ => Some (completion_verdict c)
    | [] =>
        match returns rp with
        | Throw e => Some (inl e)
        | Normal _ => completion_verdict <$> head (later rp)
        end
    end
  else
    match returns rp with
    | Throw e => Some (inl e)
    | Normal v => Some (inr v)
    end.

(** ** The host *)

(** [minio_Client opts] is [new minio.Client(opts)]; [JSON_stringify v] is
    [JSON.stringify(v)], which returns a string or [undefined], or throws
    (on a cyclic object, for one); [Date_after k v] is the [k]-th evaluation
    of [new Date(Date.now() + v * 1000)] in a call. *)
Record Host : Type := {
  minio_Client : gmap string value → completion Client;
  JSON_stringify : value → completion (option string);
  Date_after : nat → value → value;
}.

Definition stringified (host : Host) (v : value) : completion value :=
  match JSON_stringify host v with
  | Normal (Some s) => Normal (VStr s)
  | Normal None => Normal VUndefined
  | Throw e => Throw e
  end.

(** ** Promises *)

(** The state a promise takes when it is resolved with the promise [q]: it
    follows [q], through any promise [q] was itself fulfilled with. *)
Fixpoint adopt (q : promise) : promise :=
  match q with
  | Fulfilled (VPromise q') => adopt q'
  | Fulfilled v => Fulfilled v
  | Rejected e => Rejected e
  | Pending | Locked => Locked
  end.

(** The state [resolve(v)] gives a promise: fulfilled with [v], unless [v]
    is a promise, which it then follows. *)
Definition resolution (v : value) : promise :=
  match v with
  | VPromise q => adopt q
  | _ => Fulfilled v
  end.

(** [resolve(v)] and [reject(e)] act on a promise nothing has resolved yet
    and do nothing to any other. *)
Definition resolve (v : value) (p : promise) : promise :=
  match p with Pending => resolution v | _ => p end.

Definition reject (e : value) (p : promise) : promise :=
  match p with Pending => Rejected e | _ => p end.

Definition settled (p : promise) : bool :=
  match p with Fulfilled _ | Rejected _ => true | _ => false end.

(** Resolved: settled, or following a promise. *)
Definition resolved (p : promise) : bool :=
  match p with Pending => false | _ => true end.

(** ** The connector *)

(** The methods [MinioDB.prototype] defines besides [connect],
    [setupDataAccessObject] and [getTypes]. *)
Inductive operation : Type :=
| m_makeBucket | m_listBuckets | m_bucketExists | m_removeBucket
| m_listObjects | m_listObjectsV2 | m_listObjectsV2WithMetadata
| m_listIncompleteUploads | m_getBucketVersioning | m_setBucketVersioning
| m_setBucketReplication | m_getBucketReplication | m_removeBucketReplication
| m_getBucketTagging | m_setBucketTagging | m_removeBucketTagging
| m_setBucketLifecycle | m_getBucketLifecycle | m_removeBucketLifecycle
| m_setObjectLockConfig | m_getObjectLockConfig
| m_getBucketEncryption | m_setBucketEncryption | m_removeBucketEncryption
| m_getObject | m_getPartialObject | m_fGetObject | m_putObject | m_fPutObject
| m_copyObject | m_statObject | m_removeObject | m_removeObjects
| m_removeIncompleteUpload | m_putObjectRetention | m_getObjectRetention
| m_setObjectRetention | m_setObjectTagging | m_removeObjectTagging
| m_getObjectTagging | m_getObjectLegalHold | m_setObjectLegalHold
| m_composeObject | m_selectObjectContent
| m_presignedUrl | m_presignedGetObject | m_presignedPutObject
| m_presignedPostPolicy
| m_getBucketNotification | m_setBucketNotification
| m_removeAllBucketNotification | m_listenBucketNotification
| m_getBucketPolicy | m_setBucketPolicy.

#[global] Instance operation_eq_dec : EqDecision operation.
Proof. solve_decision. Defined.

(** The property name under which the prototype holds the method. *)
Definition operation_name (m : operation) : string :=
  match m with
  | m_makeBucket => "makeBucket" | m_listBuckets => "listBuckets"
  | m_bucketExists => "bucketExists" | m_removeBucket => "removeBucket"
  | m_listObjects => "listObjects" | m_listObjectsV2 => "listObjectsV2"
  | m_listObjectsV2WithMetadata => "listObjectsV2WithMetadata"
  | m_listIncompleteUploads => "listIncompleteUploads"
  | m_getBucketVersioning => "getBucketVersioning"
  | m_setBucketVersioning => "setBucketVersioning"
  | m_setBucketReplication => "setBucketReplication"
  | m_getBucketReplication => "getBucketReplication"
  | m_removeBucketReplication => "removeBucketReplication"
  | m_getBucketTagging => "getBucketTagging"
  | m_setBucketTagging => "setBucketTagging"
  | m_removeBucketTagging => "removeBucketTagging"
  | m_setBucketLifecycle => "setBucketLifecycle"
  | m_getBucketLifecycle => "getBucketLifecycle"
  | m_removeBucketLifecycle => "removeBucketLifecycle"
  | m_setObjectLockConfig => "setObjectLockConfig"
  | m_getObjectLockConfig => "getObjectLockConfig"
  | m_getBucketEncryption => "getBucketEncryption"
  | m_setBucketEncryption => "setBucketEncryption"
  | m_removeBucketEncryption => "removeBucketEncryption"
  | m_getObject => "getObject" | m_getPartialObject => "getPartialObject"
  | m_fGetObject => "fGetObject" | m_putObject => "putObject"
  | m_fPutObject => "fPutObject" | m_copyObject => "copyObject"
  | m_statObject => "statObject" | m_removeObject => "removeObject"
  | m_removeObjects => "removeObjects"
  | m_removeIncompleteUpload => "removeIncompleteUpload"
  | m_putObjectRetention => "putObjectRetention"
  | m_getObjectRetention => "getObjectRetention"
  | m_setObjectRetention => "setObjectRetention"
  | m_setObjectTagging => "setObjectTagging"
  | m_removeObjectTagging => "removeObjectTagging"
  | m_getObjectTagging => "getObjectTagging"
  | m_getObjectLegalHold => "getObjectLegalHold"
  | m_setObjectLegalHold => "setObjectLegalHold"
  | m_composeObject => "composeObject"
  | m_selectObjectContent => "selectObjectContent"
  | m_presignedUrl => "presignedUrl"
  | m_presignedGetObject => "presignedGetObject"
  | m_presignedPutObject => "presignedPutObject"
  | m_presignedPostPolicy => "presignedPostPolicy"
  | m_getBucketNotification => "getBucketNotification"
  | m_setBucketNotification => "setBucketNotification"
  | m_removeAllBucketNotification => "removeAllBucketNotification"
  | m_listenBucketNotification => "listenBucketNotification"
  | m_getBucketPolicy => "getBucketPolicy"
  | m_setBucketPolicy => "setBucketPolicy"
  end.

(** [MinioDB.prototype.m.bind(self)]: the method [target] with [this] fixed
    to the object whose identity is [this_id]. *)
Record bound : Type := Bind {
  target : operation;
  this_id : nat;
}.

(** A function handed to [process.nextTick] or to
    [dataSource.once('connected', ...)], by the closure it is:
    - [ReportClient callback] is
      [function() { if (callback) callback(null, self.client); }];
    - [DeferReportClient callback] is
      [function() { process.nextTick(<ReportClient callback>); }];
    - [CallBack callback] is [function() { callback(); }]. *)
Inductive task : Type :=
| ReportClient (callback : value)
| DeferReportClient (callback : value)
| CallBack (callback : value).

(** The data source of the host framework, as far as the connector reads or
    writes it: its settings, its [connecting] flag, the listeners waiting
    for ['connected'], the [DataAccessObject] published to it and the models
    passed to [mixin]. *)
Record DataSource : Type := {
  ds_settings : gmap string value;
  connecting : bool;
  once_connected : list task;
  ds_DataAccessObject : option (gmap string bound);
  mixed : list string;
}.

(** The connector instance.  [id] is its object identity; [connector] tells
    whether [self.connector = self] has run; [_models] are the names of the
    models defined on it; [dataSource] is [None] until [initialize] attaches
    one.  The constructor also copies the twelve recognised settings and
    [debug] onto the instance; no method reads the copies. *)
Record MinioDB : Type := {
  id : nat;
  settings : gmap string value;
  client : option Client;
  connector : bool;
  _models : list string;
  DataAccessObject : gmap string bound;
  dataSource : option DataSource;
}.

Definition set_client (c : Client) (self : MinioDB) : MinioDB :=
  {| id := id self; settings := settings self; client := Some c;
     connector := connector self; _models := _models self;
     DataAccessObject := DataAccessObject self; dataSource := dataSource self |}.

Definition set_connector (self : MinioDB) : MinioDB :=
  {| id := id self; settings := settings self; client := client self;
     connector := true; _models := _models self;
     DataAccessObject := DataAccessObject self; dataSource := dataSource self |}.

Definition set_DataAccessObject (t : gmap string bound) (self : MinioDB) : MinioDB :=
  {| id := id self; settings := settings self; client := client self;
     connector := connector self; _models := _models self;
     DataAccessObject := t; dataSource := dataSource self |}.

Definition set_dataSource (ds : DataSource) (self : MinioDB) : MinioDB :=
  {| id := id self; settings := settings self; client := client self;
     connector := connector self; _models := _models self;
     DataAccessObject := DataAccessObject self; dataSource := Some ds |}.

(** [function MinioDB(settings, dataSource)]; [settings] is already
    [settings || {}]. *)
Definition new_MinioDB (fresh : nat) (settings : gmap string value) : MinioDB :=
  {| id := fresh; settings := settings; client := None; connector := false;
     _models := []; DataAccessObject := ∅; dataSource := None |}.

(** What a call of [connect] or [initialize] leaves behind. *)
Inductive event : Type :=
| Construct (options : gmap string value)
| Invoke (callee : nat) (err : value) (data : option Client)
| Invoke0 (callee : nat).

Record step : Type := {
  after : MinioDB;
  result : completion unit;
  ticks : list task;
  trace : list event;
}.

(** *** connect *)

Definition validOptionNames : list string :=
  [ "bucketName"; "endPoint"; "port"; "useSSL"; "accessKey"; "secretKey";
    "region"; "transport"; "sessionToken"; "partSize"; "pathStyle";
    "transportAgent" ].

(** [names.indexOf(x)]: the first index holding [x], or [-1]. *)
Fixpoint indexOf (names : list string) (x : string) : Z :=
  match names with
  | [] => -1
  | y :: rest =>
      if String.eqb y x then 0
      else let i := indexOf rest x in if (i <? 0)%Z then -1 else i + 1
  end%Z.

(** [Object.keys(o)] *)
Definition Object_keys (o : gmap string value) : list string := (map_to_list o).*1.

(** The loop of [connect] that fills [validOptions]:
    [lbOptions.forEach(function(option) {
       if (validOptionNames.indexOf(option) > -1)
         validOptions[option] = self.settings[option]; })]. *)
Definition validOptions (settings : gmap string value) : gmap string value :=
  foldl (λ (acc : gmap string value) option,
           if (indexOf validOptionNames option >? -1)%Z
           then <[option := settings !!! option]> acc
           else acc)
        ∅ (Object_keys settings).

(** The assignments of [setupDataAccessObject], in source order
    ([bucketExists] is assigned twice). *)
Definition published : list operation :=
  [ m_makeBucket; m_bucketExists; m_removeBucket; m_listBuckets;
    m_bucketExists; m_listObjects; m_listObjectsV2; m_listIncompleteUploads;
    m_getBucketVersioning; m_setBucketVersioning; m_getBucketTagging;
    m_setBucketTagging; m_removeBucketTagging; m_setBucketLifecycle;
    m_getBucketLifecycle; m_removeBucketLifecycle; m_setBucketEncryption;
    m_getBucketEncryption; m_removeBucketEncryption; m_setBucketReplication;
    m_getBucketReplication; m_removeBucketReplication; m_setObjectLockConfig;
    m_getObjectLockConfig;
    m_setBucketPolicy; m_getBucketPolicy; m_setBucketNotification;
    m_getBucketNotification;
    m_getObject; m_getPartialObject; m_fGetObject; m_putObject; m_fPutObject;
    m_copyObject; m_statObject; m_removeObject; m_removeObjects;
    m_removeIncompleteUpload; m_putObjectRetention; m_getObjectRetention;
    m_getObjectLegalHold; m_setObjectTagging; m_getObjectTagging;
    m_removeObjectTagging; m_composeObject; m_selectObjectContent;
    m_presignedUrl; m_presignedGetObject; m_presignedPutObject;
    m_presignedPostPolicy ].

(** [this.DataAccessObject.m = MinioDB.prototype.m.bind(self)] *)
Definition assign (self_id : nat) (t : gmap string bound) (m : operation) : gmap string bound :=
  <[operation_name m := Bind m self_id]> t.

(** [setupDataAccessObject]: the assignments, then
    [this.dataSource.DataAccessObject = this.DataAccessObject] and a
    [mixin] per model.  Without a data source the second step throws, after
    the assignments. *)
Definition setupDataAccessObject (self : MinioDB) : MinioDB * completion (gmap string bound) :=
  let table := foldl (assign (id self)) (DataAccessObject self) published in
  let self := set_DataAccessObject table self in
  match dataSource self with
  | None => (self, Throw (TypeError "Cannot set properties of undefined"))
  | Some ds =>
      let ds := {| ds_settings := ds_settings ds; connecting := connecting ds;
                   once_connected := once_connected ds;
                   ds_DataAccessObject := Some table;
                   mixed := mixed ds ++ _models self |} in
      (set_dataSource ds self, Normal table)
  end.

(** [MinioDB.prototype.connect].  The [onError] function the source declares
    in its last branch is never called and does not appear here. *)
Definition connect (host : Host) (self : MinioDB) (callback : value) : step :=
  match client self with
  | Some _ =>
      {| after := self; result := Normal (); ticks := [ReportClient callback];
         trace := [] |}
  | None =>
      match dataSource self with
      | None =>
          {| after := self;
             result := Throw (TypeError "Cannot read properties of undefined");
             ticks := []; trace := [] |}
      | Some ds =>
          if connecting ds then
            let ds := {| ds_settings := ds_settings ds; connecting := connecting ds;
                         once_connected := once_connected ds ++ [DeferReportClient callback];
                         ds_DataAccessObject := ds_DataAccessObject ds;
                         mixed := mixed ds |} in
            {| after := set_dataSource ds self; result := Normal (); ticks := [];
               trace := [] |}
          else
            let options := validOptions (settings self) in
            let self := set_connector self in
            match minio_Client host options with
            | Throw e =>
                {| after := self; result := Throw e; ticks := [];
                   trace := [Construct options] |}
            | Normal c =>
                let self := set_client c self in
                match setupDataAccessObject self with
                | (self, Throw e) =>
                    {| after := self; result := Throw e; ticks := [];
                       trace := [Construct options] |}
                | (self, Normal _) =>
                    match callback with
                    | VFun f =>
                        {| after := self; result := Normal (); ticks := [];
                           trace := [Construct options; Invoke f VNull (Some c)] |}
                    | _ =>
                        {| after := self;
                           result := Throw (TypeError "callback is not a function");
                           ticks := []; trace := [Construct options] |}
                    end
                end
            end
      end
  end.

(** Running a scheduled function against the connector as it is then. *)
Definition run_task (t : task) (self : MinioDB) : completion (list event) * list task :=
  match t with
  | ReportClient callback =>
      if truthy callback then
        match callback with
        | VFun f => (Normal [Invoke f VNull (client self)], [])
        | _ => (Throw (TypeError "callback is not a function"), [])
        end
      else (Normal [], [])
  | DeferReportClient callback => (Normal [], [ReportClient callback])
  | CallBack callback =>
      match callback with
      | VFun f => (Normal [Invoke0 f], [])
      | _ => (Throw (TypeError "callback is not a function"), [])
      end
  end.

(** [exports.initialize].  [require('minio')] is an object, so the guard
    [if (!minio) return;] never fires; [dataSource.settings] is the object
    the host framework keeps there.  [fresh] is the identity of the
    connector object the call allocates. *)
Definition initialize (host : Host) (fresh : nat) (ds : DataSource) (callback : value) : step :=
  let s := ds_settings ds in
  let self := set_dataSource ds (new_MinioDB fresh s) in
  if truthy callback then
    if truthy (s !!! "lazyConnect") then
      {| after := self; result := Normal (); ticks := [CallBack callback];
         trace := [] |}
    else connect host self callback
  else {| after := self; result := Normal (); ticks := []; trace := [] |}.

(** ** Calling the client *)

(** The function a method passes to the client as completion callback acts
    on some state [S] (the promise under construction, or the log of calls
    to the caller's own callback) each time the client invokes it. *)
Definition handler (S : Type) : Type := value → value → S → S.

(** One statement [self.client.m(args..., cb)] of a method body: what the
    client's synchronous callbacks do to the state ([now]), how the call
    completes ([outcome]), what its later callbacks do ([afterwards]), the
    request it made of the client, and the calls the client made of
    functions among the arguments ([calls]). *)
Record effect (S : Type) : Type := {
  now : S → S;
  outcome : completion value;
  afterwards : S → S;
  requests : list request;
  calls : list (value * list value);
}.
Arguments now {S} _ _.
Arguments outcome {S} _.
Arguments afterwards {S} _ _.
Arguments requests {S} _.
Arguments calls {S} _.

Definition deliver {S : Type} (cb : handler S) (completions : list (value * value)) (s : S) : S :=
  foldl (λ s c, cb c.1 c.2 s) s completions.
Arguments deliver : simpl never.

(** [self.client.m(args...)] or [self.client.m(args..., cb)].  With
    [self.client] undefined the property read throws. *)
Definition client_call {S : Type} (self : MinioDB) (m : string) (args : list value)
    (cb : option (handler S)) : effect S :=
  match client self with
  | None =>
      {| now := λ s, s;
         outcome := Throw (TypeError "Cannot read properties of undefined");
         afterwards := λ s, s; requests := []; calls := [] |}
  | Some c =>
      match cb with
      | Some k =>
          let rq := Request m args true in
          let rp := respond c rq in
          {| now := deliver k (during rp); outcome := returns rp;
             afterwards := deliver k (later rp); requests := [rq];
             calls := forwarded_calls rq rp |}
      | None =>
          let rq := Request m args false in
          let rp := respond c rq in
          {| now := λ s, s; outcome := returns rp; afterwards := λ s, s;
             requests := [rq]; calls := forwarded_calls rq rp |}
      end
  end.

(** [new Promise((resolve, reject) => { const x = <call>; <rest x> })]: the
    executor runs at once, an exception it throws rejects the promise, and
    callbacks the client invokes later still act on it. *)
Definition new_Promise (call : effect promise) (rest : value → promise → promise) : promise :=
  let p := now call Pending in
  let p := match outcome call with
           | Normal x => rest x p
           | Throw e => reject e p
           end in
  afterwards call p.

(** The three completion callbacks of the source:
    [function(err, data) { if (err) reject(err); else resolve(data); }],
    [function(err) { if (err) reject(err); else resolve(); }] and
    [function(err) { if (err) reject(err); else resolve(true); }]. *)
Definition resolve_data : handler promise :=
  λ err data, if truthy err then reject err else resolve data.

Definition resolve_nothing : handler promise :=
  λ err _, if truthy err then reject err else resolve VUndefined.

Definition resolve_true : handler promise :=
  λ err _, if truthy err then reject err else resolve (VBool true).

(** What a method call gives its caller: the value it returns or the
    exception it throws ([returned]), the requests it made of the client
    ([sent]), the calls the method itself made of a callback the caller
    passed ([invoked], callee and arguments, in order), a promise it created
    without returning it ([unreturned]), and the calls the client made of
    functions of the caller that the method handed it as arguments
    ([called_by_client]).  A promise is given in the state the client's
    completions leave it in. *)
Inductive js_return : Type :=
| RetUndefined
| RetPromise (p : promise).

Record run : Type := {
  returned : completion js_return;
  sent : list request;
  invoked : list (value * list value);
  unreturned : option promise;
  called_by_client : list (value * list value);
}.

(** [return new Promise((resolve, reject) => { self.client.m(args, cb); })] *)
Definition forward (self : MinioDB) (m : string) (args : list value) (cb : handler promise) : run :=
  let call := client_call self m args (Some cb) in
  {| returned := Normal (RetPromise (new_Promise call (λ _ p, p)));
     sent := requests call; invoked := []; unreturned := None;
     called_by_client := calls call |}.

(** [return new Promise((resolve, reject) => {
      const stream = self.client.m(args); resolve(stream); })] *)
Definition forward_stream (self : MinioDB) (m : string) (args : list value) : run :=
  let call := client_call self m args None in
  {| returned := Normal (RetPromise (new_Promise call resolve));
     sent := requests call; invoked := []; unreturned := None;
     called_by_client := calls call |}.

(** ** The forwarding methods

    Each takes the connector ([this]) and the actual arguments of the call.
    The client method called and the arguments handed to it are those of the
    source. *)

(** *** Buckets *)

Definition makeBucket (self : MinioDB) (args : list value) : run :=
  let bucketName := param 0 args in
  let region := param 1 args in
  if is_undefined region
  then forward self "makeBucket" [bucketName] resolve_nothing
  else forward self "makeBucket" [bucketName; region] resolve_nothing.

Definition listBuckets (self : MinioDB) (args : list value) : run :=
  forward self "listBuckets" [] resolve_data.

(** An [async function]: the promise it returns takes the state of the one
    its body returns. *)
Definition bucketExists (self : MinioDB) (args : list value) : run :=
  let bucketName := param 0 args in
  forward self "bucketExists" [bucketName] resolve_data.

Definition removeBucket (self : MinioDB) (args : list value) : run :=
  let bucketName := param 0 args in
  forward self "removeBucket" [bucketName] resolve_nothing.

Definition listObjects (self : MinioDB) (args : list value) : run :=
  let bucketName := param 0 args in
  let prefix := param 1 args in
  let recursive := param 2 args in
  let listOpts := param 3 args in
  forward_stream self "listObjects" [bucketName; prefix; recursive; listOpts].

Definition listObjectsV2 (self : MinioDB) (args : list value) : run :=
  let bucketName := param 0 args in
  let prefix := param 1 args in
  let recursive := param 2 args in
  forward_stream self "listObjectsV2"
    [VObj [("Bucket", bucketName); ("Prefix", prefix); ("Recursive", recursive)]].

Definition listObjectsV2WithMetadata (self : MinioDB) (args : list value) : run :=
  let bucketName := param 0 args in
  let prefix := param 1 args in
  let recursive := param 2 args in
  let startAfter := param 3 args in
  forward_stream self "listObjectsV2" [bucketName; prefix; recursive; startAfter].

(** The fourth parameter, [callback], is never used. *)
Definition listIncompleteUploads (self : MinioDB) (args : list value) : run :=
  let bucketName := param 0 args in
  let prefix := param 1 args in
  let recursive := param 2 args in
  forward_stream self "listIncompleteUploads"
    [VObj [("Bucket", bucketName); ("Prefix", prefix); ("Recursive", recursive)]].

(** What the completion callback of [getBucketVersioning] has done so far:
    the calls it made of the caller's [callback], and the exception it threw,
    if it did. *)
Record relay : Type := {
  relayed_calls : list (value * list value);
  thrown : option value;
}.

(** The completion callback of [getBucketVersioning],
    [function(err, data) { if (err) callback(err); else callback(null, data); }],
    after [callback = callback || function() { }].  Calling a [callback]
    that is no function throws a [TypeError] and calls nothing; once the
    callback has thrown, the client's call is over.  A function of the
    caller is taken to return.  *)
Definition pass_on (callback : value) : handler relay :=
  λ err data s,
    match thrown s with
    | Some _ => s
    | None =>
        if truthy callback then
          match callback with
          | VFun _ =>
              {| relayed_calls :=
                   relayed_calls s
                   ++ [(callback, if truthy err then [err] else [VNull; data])];
                 thrown := None |}
          | _ =>
              {| relayed_calls := relayed_calls s;
                 thrown := Some (TypeError "callback is not a function") |}
          end
        else s
    end.

(** No promise is made and nothing is returned.  What the completion
    callback throws during the client's call comes out of the call and of
    [getBucketVersioning]; what it throws later reaches no caller. *)
Definition getBucketVersioning (self : MinioDB) (args : list value) : run :=
  let bucketName := param 0 args in
  let callback := param 1 args in
  let call := client_call self "getBucketVersioning"
                [VObj [("Bucket", bucketName)]] (Some (pass_on callback)) in
  let first := now call {| relayed_calls := []; thrown := None |} in
  {| returned := match thrown first with
                 | Some e => Throw e
                 | None =>
                     match outcome call with
                     | Normal _ => Normal RetUndefined
                     | Throw e => Throw e
                     end
                 end;
     sent := requests call;
     invoked := relayed_calls
                  (afterwards call {| relayed_calls := relayed_calls first;
                                      thrown := None |});
     unreturned := None;
     called_by_client := calls call |}.

(** The promise is created but the statement has no [return]. *)
Definition setBucketVersioning (self : MinioDB) (args : list value) : run :=
  let bucketName := param 0 args in
  let versioningConfig := param 1 args in
  let call := client_call self "setBucketVersioning"
                [bucketName; versioningConfig] (Some resolve_data) in
  {| returned := Normal RetUndefined;
     sent := requests call; invoked := [];
     unreturned := Some (new_Promise call (λ _ p, p));
     called_by_client := calls call |}.

Definition setBucketReplication (self : MinioDB) (args : list value) : run :=
  let bucketName := param 0 args in
  let replicationConfig := param 1 args in
  forward self "setBucketReplication" [bucketName; replicationConfig] resolve_data.

Definition getBucketReplication (self : MinioDB) (args : list value) : run :=
  let bucketName := param 0 args in
  forward self "getBucketReplication" [bucketName] resolve_data.

Definition removeBucketReplication (self : MinioDB) (args : list value) : run :=
  let bucketName := param 0 args in
  forward self "removeBucketReplication" [bucketName] resolve_data.

(** The parameter [callback] of the three tagging methods is never used. *)
Definition getBucketTagging (self : MinioDB) (args : list value) : run :=
  let bucketName := param 0 args in
  forward self "getBucketTagging" [bucketName] resolve_data.

Definition setBucketTagging (self : MinioDB) (args : list value) : run :=
  let bucketName := param 0 args in
  let tags := param 1 args in
  forward self "setBucketTagging" [bucketName; tags] resolve_data.

Definition removeBucketTagging (self : MinioDB) (args : list value) : run :=
  let bucketName := param 0 args in
  forward self "removeBucketTagging" [bucketName] resolve_data.

Definition setBucketLifecycle (self : MinioDB) (args : list value) : run :=
  let bucketName := param 0 args in
  let lifecycleConfig := param 1 args in
  forward self "putBucketLifecycleConfiguration" [bucketName; lifecycleConfig] resolve_data.

Definition getBucketLifecycle (self : MinioDB) (args : list value) : run :=
  let bucketName := param 0 args in
  forward self "getBucketLifecycleConfiguration" [bucketName] resolve_data.

Definition removeBucketLifecycle (self : MinioDB) (args : list value) : run :=
  let bucketName := param 0 args in
  forward self "removeBucketLifecycleConfiguration" [bucketName] resolve_data.

Definition setObjectLockConfig (self : MinioDB) (args : list value) : run :=
  let bucketName := param 0 args in
  let lockConfig := param 1 args in
  forward self "putObjectLockConfiguration" [bucketName; lockConfig] resolve_data.

(** Defined twice in the source, with the same body. *)
Definition getObjectLockConfig (self : MinioDB) (args : list value) : run :=
  let bucketName := param 0 args in
  forward self "getObjectLockConfiguration" [bucketName] resolve_data.

Definition getBucketEncryption (self : MinioDB) (args : list value) : run :=
  let bucketName := param 0 args in
  forward self "getBucketEncryption" [bucketName] resolve_data.

Definition setBucketEncryption (self : MinioDB) (args : list value) : run :=
  let bucketName := param 0 args in
  let encryptionConfig := param 1 args in
  forward self "setBucketEncryption" [bucketName; encryptionConfig] resolve_data.

Definition removeBucketEncryption (self : MinioDB) (args : list value) : run :=
  let bucketName := param 0 args in
  forward self "removeBucketEncryption" [bucketName] resolve_data.

(** *** Objects *)

Definition getObject (self : MinioDB) (args : list value) : run :=
  let bucketName := param 0 args in
  let objectName := param 1 args in
  let getOpts := param 2 args in
  forward_stream self "getObject" [bucketName; objectName; getOpts].

Definition getPartialObject (self : MinioDB) (args : list value) : run :=
  let bucketName := param 0 args in
  let objectName := param 1 args in
  let offset := param 2 args in
  let length := param 3 args in
  let getOpts := param 4 args in
  forward_stream self "getPartialObject" [bucketName; objectName; offset; length; getOpts].

Definition fGetObject (self : MinioDB) (args : list value) : run :=
  let bucketName := param 0 args in
  let objectName := param 1 args in
  let filePath := param 2 args in
  forward self "fGetObject" [bucketName; objectName; filePath] resolve_data.

Definition putObject (self : MinioDB) (args : list value) : run :=
  let bucketName := param 0 args in
  let objectName := param 1 args in
  let stream := param 2 args in
  let size := param 3 args in
  let putOpts := param 4 args in
  forward self "putObject" [bucketName; objectName; stream; size; putOpts] resolve_data.

Definition fPutObject (self : MinioDB) (args : list value) : run :=
  let bucketName := param 0 args in
  let objectName := param 1 args in
  let filePath := param 2 args in
  forward self "fPutObject" [bucketName; objectName; filePath] resolve_data.

Definition copyObject (self : MinioDB) (args : list value) : run :=
  let bucketName := param 0 args in
  let objectName := param 1 args in
  let destBucket := param 2 args in
  let destObjectName := param 3 args in
  forward self "copyObject" [bucketName; objectName; destBucket; destObjectName] resolve_data.

Definition statObject (self : MinioDB) (args : list value) : run :=
  let bucketName := param 0 args in
  let objectName := param 1 args in
  forward self "statObject" [bucketName; objectName] resolve_data.

Definition removeObject (self : MinioDB) (args : list value) : run :=
  let bucketName := param 0 args in
  let objectName := param 1 args in
  let removeOpts := param 2 args in
  forward self "removeObject" [bucketName; objectName; removeOpts] resolve_true.

Definition removeObjects (self : MinioDB) (args : list value) : run :=
  let bucketName := param 0 args in
  let objectList := param 1 args in
  forward self "removeObjects" [bucketName; objectList] resolve_data.

Definition removeIncompleteUpload (self : MinioDB) (args : list value) : run :=
  let bucketName := param 0 args in
  let objectName := param 1 args in
  forward self "removeIncompleteUpload" [bucketName; objectName] resolve_data.

Definition putObjectRetention (self : MinioDB) (args : list value) : run :=
  let bucketName := param 0 args in
  let objectName := param 1 args in
  let retentionOpts := param 2 args in
  forward self "putObjectRetention" [bucketName; objectName; retentionOpts] resolve_data.

Definition getObjectRetention (self : MinioDB) (args : list value) : run :=
  let bucketName := param 0 args in
  let objectName := param 1 args in
  let getOpts := param 2 args in
  forward self "getObjectRetention" [bucketName; objectName; getOpts] resolve_data.

Definition setObjectRetention (self : MinioDB) (args : list value) : run :=
  let bucketName := param 0 args in
  let objectName := param 1 args in
  let mode := param 2 args in
  let retainUntilDate := param 3 args in
  forward self "setObjectRetention" [bucketName; objectName; mode; retainUntilDate]
    resolve_nothing.

Definition setObjectTagging (self : MinioDB) (args : list value) : run :=
  let bucketName := param 0 args in
  let objectName := param 1 args in
  let tags := param 2 args in
  let putOpts := param 3 args in
  forward self "putObjectTagging" [bucketName; objectName; tags; putOpts] resolve_data.

Definition removeObjectTagging (self : MinioDB) (args : list value) : run :=
  let bucketName := param 0 args in
  let objectName := param 1 args in
  let removeopts := param 2 args in
  forward self "removeObjectTagging" [bucketName; objectName; removeopts] resolve_data.

Definition getObjectTagging (self : MinioDB) (args : list value) : run :=
  let bucketName := param 0 args in
  let objectName := param 1 args in
  let getOpts := param 2 args in
  forward self "getObjectTagging" [bucketName; objectName; getOpts] resolve_data.

Definition getObjectLegalHold (self : MinioDB) (args : list value) : run :=
  let bucketName := param 0 args in
  let objectName := param 1 args in
  let getOpts := param 2 args in
  forward self "getObjectLegalHold" [bucketName; objectName; getOpts] resolve_data.

Definition setObjectLegalHold (self : MinioDB) (args : list value) : run :=
  let bucketName := param 0 args in
  let objectName := param 1 args in
  let setOpts := param 2 args in
  forward self "setObjectLegalHold" [bucketName; objectName; setOpts] resolve_data.

Definition composeObject (self : MinioDB) (args : list value) : run :=
  let bucketName := param 0 args in
  let sourceObjectList := param 1 args in
  forward self "composeObject" [bucketName; sourceObjectList] resolve_data.

Definition selectObjectContent (self : MinioDB) (args : list value) : run :=
  let bucketName := param 0 args in
  let objectName := param 1 args in
  let selectOpts := param 2 args in
  forward_stream self "selectObjectContent" [bucketName; objectName; selectOpts].

(** *** Presigned requests, notifications and policies *)

Definition presignedUrl (self : MinioDB) (args : list value) : run :=
  let method := param 0 args in
  let bucketName := param 1 args in
  let objectName := param 2 args in
  let expiry := param 3 args in
  let reqParams := param 4 args in
  forward self "presignedUrl" [method; bucketName; objectName; expiry; reqParams] resolve_data.

Definition presignedGetObject (self : MinioDB) (args : list value) : run :=
  let bucketName := param 0 args in
  let objectName := param 1 args in
  let expiry := param 2 args in
  let respHeaders := param 3 args in
  let requestDate := param 4 args in
  forward self "presignedGetObject"
    [bucketName; objectName; expiry; respHeaders; requestDate] resolve_data.

Definition presignedPutObject (self : MinioDB) (args : list value) : run :=
  let bucketName := param 0 args in
  let objectName := param 1 args in
  let expiry := param 2 args in
  forward self "presignedPutObject" [bucketName; objectName; expiry] resolve_data.

Definition getBucketNotification (self : MinioDB) (args : list value) : run :=
  let bucketName := param 0 args in
  forward self "getBucketNotification" [bucketName] resolve_data.

Definition setBucketNotification (self : MinioDB) (args : list value) : run :=
  let bucketName := param 0 args in
  let notificationConfig := param 1 args in
  forward self "setBucketNotification" [bucketName; notificationConfig] resolve_data.

Definition removeAllBucketNotification (self : MinioDB) (args : list value) : run :=
  let bucketName := param 0 args in
  let config := VObj [("QueueConfiguration", VObj []);
                      ("TopicConfiguration", VObj []);
                      ("LambdaFunctionConfiguration", VObj [])] in
  forward self "setBucketNotification" [bucketName; config] resolve_nothing.

Definition listenBucketNotification (self : MinioDB) (args : list value) : run :=
  let bucketName := param 0 args in
  forward_stream self "listenBucketNotification" [bucketName].

Definition getBucketPolicy (self : MinioDB) (args : list value) : run :=
  let bucketName := param 0 args in
  forward self "getBucketPolicy" [bucketName] resolve_data.

Section Hosted.
Context (host : Host).

(** The body first builds a policy with [new self.client.Policy()] and its
    setters, outside any promise, and discards it; the promise then sends
    an object literal of its own. *)
Definition presignedPostPolicy (self : MinioDB) (args : list value) : run :=
  let bucketName := param 0 args in
  let objectName := param 1 args in
  let objectNamePrefix := param 2 args in
  let expiresInSeconds := param 3 args in
  let throws e := {| returned := Throw e; sent := []; invoked := [];
                     unreturned := None; called_by_client := [] |} in
  match client self with
  | None => throws (TypeError "Cannot read properties of undefined")
  | Some c =>
      match Policy c [Date_after host 0 expiresInSeconds; bucketName;
                      objectName; objectNamePrefix] with
      | Throw e => throws e
      | Normal _ =>
          let policy :=
            VObj [("expiration", Date_after host 1 expiresInSeconds);
                  ("conditions",
                   VArr [VArr [VStr "starts-with"; VStr "$key"; objectName];
                         VObj [("bucket", bucketName)];
                         VObj [("acl", VStr "private")]])] in
          forward self "presignedPostPolicy" [policy] resolve_data
      end
  end.

(** [JSON.stringify(bucketPolicy)] is evaluated inside the executor, after
    [self.client.setBucketPolicy] has been read: when it throws, the promise
    is rejected and the client is not called. *)
Definition setBucketPolicy (self : MinioDB) (args : list value) : run :=
  let bucketName := param 0 args in
  let bucketPolicy := param 1 args in
  let rejects e := {| returned := Normal (RetPromise (Rejected e)); sent := [];
                      invoked := []; unreturned := None; called_by_client := [] |} in
  match client self with
  | None => rejects (TypeError "Cannot read properties of undefined")
  | Some _ =>
      match stringified host bucketPolicy with
      | Throw e => rejects e
      | Normal policy =>
          forward self "setBucketPolicy" [bucketName; policy] resolve_data
      end
  end.

(** [MinioDB.prototype[name]] *)
Definition prototype (m : operation) : MinioDB → list value → run :=
  match m with
  | m_makeBucket => makeBucket | m_listBuckets => listBuckets
  | m_bucketExists => bucketExists | m_removeBucket => removeBucket
  | m_listObjects => listObjects | m_listObjectsV2 => listObjectsV2
  | m_listObjectsV2WithMetadata => listObjectsV2WithMetadata
  | m_listIncompleteUploads => listIncompleteUploads
  | m_getBucketVersioning => getBucketVersioning
  | m_setBucketVersioning => setBucketVersioning
  | m_setBucketReplication => setBucketReplication
  | m_getBucketReplication => getBucketReplication
  | m_removeBucketReplication => removeBucketReplication
  | m_getBucketTagging => getBucketTagging
  | m_setBucketTagging => setBucketTagging
  | m_removeBucketTagging => removeBucketTagging
  | m_setBucketLifecycle => setBucketLifecycle
  | m_getBucketLifecycle => getBucketLifecycle
  | m_removeBucketLifecycle => removeBucketLifecycle
  | m_setObjectLockConfig => setObjectLockConfig
  | m_getObjectLockConfig => getObjectLockConfig
  | m_getBucketEncryption => getBucketEncryption
  | m_setBucketEncryption => setBucketEncryption
  | m_removeBucketEncryption => removeBucketEncryption
  | m_getObject => getObject | m_getPartialObject => getPartialObject
  | m_fGetObject => fGetObject | m_putObject => putObject
  | m_fPutObject => fPutObject | m_copyObject => copyObject
  | m_statObject => statObject | m_removeObject => removeObject
  | m_removeObjects => removeObjects
  | m_removeIncompleteUpload => removeIncompleteUpload
  | m_putObjectRetention => putObjectRetention
  | m_getObjectRetention => getObjectRetention
  | m_setObjectRetention => setObjectRetention
  | m_setObjectTagging => setObjectTagging
  | m_removeObjectTagging => removeObjectTagging
  | m_getObjectTagging => getObjectTagging
  | m_getObjectLegalHold => getObjectLegalHold
  | m_setObjectLegalHold => setObjectLegalHold
  | m_composeObject => composeObject
  | m_selectObjectContent => selectObjectContent
  | m_presignedUrl => presignedUrl
  | m_presignedGetObject => presignedGetObject
  | m_presignedPutObject => presignedPutObject
  | m_presignedPostPolicy => presignedPostPolicy
  | m_getBucketNotification => getBucketNotification
  | m_setBucketNotification => setBucketNotification
  | m_removeAllBucketNotification => removeAllBucketNotification
  | m_listenBucketNotification => listenBucketNotification
  | m_getBucketPolicy => getBucketPolicy
  | m_setBucketPolicy => setBucketPolicy
  end.

End Hosted.

(** ** How the methods are grouped in the statements below *)

(** The methods whose completion callback takes [err] alone and resolves
    with no value. *)
Definition resolves_nothing : list operation :=
  [m_makeBucket; m_removeBucket; m_setObjectRetention; m_removeAllBucketNotification].

(** The number of parameters a method declares. *)
Definition formals (m : operation) : nat :=
  match m with
  | m_listBuckets => 0
  | m_bucketExists | m_removeBucket
  | m_getBucketReplication | m_removeBucketReplication
  | m_getBucketLifecycle | m_removeBucketLifecycle
  | m_getObjectLockConfig | m_getBucketEncryption | m_removeBucketEncryption
  | m_getBucketNotification | m_removeAllBucketNotification
  | m_listenBucketNotification | m_getBucketPolicy => 1
  | m_makeBucket | m_getBucketVersioning | m_setBucketVersioning
  | m_setBucketReplication | m_getBucketTagging | m_removeBucketTagging
  | m_setBucketLifecycle | m_setObjectLockConfig
  | m_setBucketEncryption | m_statObject | m_removeObjects
  | m_removeIncompleteUpload | m_composeObject | m_setBucketNotification
  | m_setBucketPolicy => 2
  | m_listObjectsV2 | m_setBucketTagging | m_getObject | m_fGetObject
  | m_fPutObject | m_removeObject | m_putObjectRetention | m_getObjectRetention
  | m_removeObjectTagging | m_getObjectTagging | m_getObjectLegalHold
  | m_setObjectLegalHold | m_selectObjectContent | m_presignedPutObject => 3
  | m_listObjects | m_listObjectsV2WithMetadata | m_listIncompleteUploads
  | m_copyObject
  | m_setObjectRetention | m_setObjectTagging | m_presignedPostPolicy => 4
  | m_getPartialObject | m_putObject | m_presignedUrl | m_presignedGetObject => 5
  end.

(** The methods that declare a trailing [callback] parameter and never use
    it; the parameters before it are the ones they hand on. *)
Definition unused_callback : list operation :=
  [m_getBucketTagging; m_setBucketTagging; m_removeBucketTagging].

(** The methods that hand the client an object of their own making in
    place of their parameters: an option object, a policy, a notification
    configuration. *)
Definition repackaging : list operation :=
  [m_listObjectsV2; m_listIncompleteUploads; m_getBucketVersioning;
   m_presignedPostPolicy; m_removeAllBucketNotification].

(** The error a call of [connect] reports, thrown or handed to the
    callback. *)
Definition reported_error (s : step) : option value :=
  match result s with
  | Throw e => Some e
  | Normal _ =>
      head (omap (λ ev, match ev with
                        | Invoke _ err _ => if truthy err then Some err else None
                        | _ => None
                        end) (trace s))
  end.

(** A table that holds nothing but what [setupDataAccessObject] assigns;
    the empty table of a new connector is one. *)
Definition only_published (t : gmap string bound) : Prop :=
  ∀ name, is_Some (t !! name) → ∃ m, m ∈ published ∧ name = operation_name m.

(** ** Sample clients and hosts *)

(** A client that completes every call with the error [e], after the call
    has returned, and throws [e] from a call without callback. *)
Definition failing_client (e : value) : Client :=
  {| respond := λ rq,
       if with_callback rq then Reply [] (Normal VUndefined) [(e, VUndefined)] []
       else Reply [] (Throw e) [] [];
     Policy := λ _, Normal () |}.

(** A client that completes every call with [(null, v)], after the call has
    returned, and returns [v] from a call without callback. *)
Definition succeeding_client (v : value) : Client :=
  {| respond := λ rq,
       if with_callback rq then Reply [] (Normal VUndefined) [(VNull, v)] []
       else Reply [] (Normal v) [] [];
     Policy := λ _, Normal () |}.

(** The same, but without a [Policy] constructor. *)
Definition client_without_Policy (v : value) : Client :=
  {| respond := respond (succeeding_client v);
     Policy := λ _, Throw (TypeError "self.client.Policy is not a constructor") |}.

(** A host for the examples.  Its [new minio.Client] always completes as
    [made].  Its [JSON.stringify] is JavaScript's on [undefined], functions,
    [null], booleans, the empty object and the empty array, and on errors and
    promises, which have no enumerable property; a host object is taken to
    refer to itself, on which [JSON.stringify] throws; the examples use it
    on no other value, and it is ["null"] there. *)
Definition sample_host (made : completion Client) : Host :=
  {| minio_Client := λ _, made;
     JSON_stringify := λ v, match v with
                            | VUndefined | VFun _ => Normal None
                            | VBool true => Normal (Some "true")
                            | VBool false => Normal (Some "false")
                            | VObj [] | VError _ _ | VPromise _ => Normal (Some "{}")
                            | VArr [] => Normal (Some "[]")
                            | VHost _ =>
                                Throw (TypeError "Converting circular structure to JSON")
                            | _ => Normal (Some "null")
                            end;
     Date_after := λ k _, VHost k |}.

Definition NoSuchKey : value := VError "S3Error" "The specified key does not exist.".
Definition InvalidEndpoint : value := VError "InvalidEndpointError" "Invalid endPoint".

Definition sample_dataSource (settings : gmap string value) : DataSource :=
  {| ds_settings := settings; connecting := false; once_connected := [];
     ds_DataAccessObject := None; mixed := [] |}.

Definition sample_settings : gmap string value :=
  <["endPoint" := VStr "localhost"]>
    (<["port" := VNum 9002]>
       (<["useSSL" := VBool false]>
          (<["accessKey" := VStr "K"]>
             (<["secretKey" := VStr "S"]>
                (<["connector" := VStr "minio"]> ∅))))).

(** A connector that has been attached to a data source and holds [c]. *)
Definition ready_connector (c : Client) : MinioDB :=
  set_client c (set_dataSource (sample_dataSource sample_settings)
                  (new_MinioDB 7 sample_settings)).

(** ** Notions used in the statements *)

(** A completion callback of the source's form: reject on a truthy [err],
    otherwise resolve with [g data]. *)
Definition standard (g : value → value) (k : handler promise) : Prop :=
  ∀ err data, k err data = if truthy err then reject err else resolve (g data).

(** The promise that stands for a verdict of the client, a value [x] on
    success being resolved as [g x]. *)
Definition promise_of (g : value → value) (v : option (value + value)) : promise :=
  match v with
  | Some (inl e) => Rejected e
  | Some (inr x) => resolution (g x)
  | None => Pending
  end.

(** What a method resolves its promise with when the client's call
    succeeded with [v]. *)
Definition success_value (m : operation) (v : value) : value :=
  if decide (m = m_removeObject) then VBool true
  else if decide (m ∈ resolves_nothing) then VUndefined
  else v.

(** A method that makes its call of the client inside a promise it returns
    is one of the two forms, for a callback of the source's form. *)
Inductive regular (m : operation) (self : MinioDB) : run → Prop :=
| is_forward name cargs k :
    standard (success_value m) k → regular m self (forward self name cargs k)
| is_forward_stream name cargs :
    (∀ v, success_value m v = v) → regular m self (forward_stream self name cargs).

(** ** Notions used for the further properties *)

(** Sequential calls of [connect], one per callback, each on the connector
    as the one before left it; the traces in order. *)
Fixpoint connect_all (host : Host) (self : MinioDB) (callbacks : list value)
    : MinioDB * list event :=
  match callbacks with
  | [] => (self, [])
  | callback :: rest =>
      let s := connect host self callback in
      let r := connect_all host (after s) rest in
      (r.1, (trace s ++ r.2)%list)
  end.

(** The options of the constructor calls in a trace. *)
Definition constructions (tr : list event) : list (gmap string value) :=
  omap (λ ev, match ev with Construct o => Some o | _ => None end) tr.



(** The prototype methods [setupDataAccessObject] does not assign. *)
Definition unpublished : list operation :=
  [m_setObjectRetention; m_setObjectLegalHold; m_listObjectsV2WithMetadata;
   m_removeAllBucketNotification; m_listenBucketNotification].

(** How [getBucketVersioning] passes one completion on to [callback]. *)
Definition relayed (callback : value) (c : value * value) : value * list value :=
  (callback, if truthy c.1 then [c.1] else [VNull; c.2]).

(** What [getBucketVersioning] gives back, by the callback it was given and
    the client's reply: what the client's call returned or threw, unless the
    callback is truthy and no function and the client completes during the
    call, which then ends in the [TypeError] of calling the callback. *)
Definition callback_outcome (callback : value) (rp : reply) : completion js_return :=
  let of_call := match returns rp with
                 | Normal _ => Normal RetUndefined
                 | Throw e => Throw e
                 end in
  match callback, during rp with
  | VFun _, _ => of_call
  | _, [] => of_call
  | _, _ :: _ =>
      if truthy callback then Throw (TypeError "callback is not a function")
      else of_call
  end.

(** The calls [getBucketVersioning] makes of the callback it was given: one
    per completion of the client, in order, for a function; none
    otherwise. *)
Definition callback_calls (callback : value) (rp : reply) : list (value * list value) :=
  match callback with
  | VFun _ => relayed callback <$> (during rp ++ later rp)%list
  | _ => []
  end.

(** A client as the [minio] package is when it is given a trailing function
    in place of an option: it takes the function for the completion
    callback, calls it with [(null, v)] and returns [undefined]; given none
    it returns a promise of [v]. *)
Definition callback_or_promise_client (v : value) : Client :=
  {| respond := λ rq,
       match last (arguments rq) with
       | Some (VFun f) =>
           if with_callback rq then Reply [] (Normal VUndefined) [(VNull, v)] []
           else Reply [] (Normal VUndefined) [] [(f, [VNull; v])]
       | _ =>
           if with_callback rq then Reply [] (Normal VUndefined) [(VNull, v)] []
           else Reply [] (Normal (VPromise (Fulfilled v))) [] []
       end;
     Policy := λ _, Normal () |}.

(** The prototype method of a given property name. *)
Definition operation_of_name (name : string) : option operation :=
  head (filter (λ m, operation_name m = name) (published ++ unpublished)%list).

(** ** Tactics *)

(** [x ∉ [a; b; ...]] for constructors. *)
Ltac not_listed :=
  let H := fresh in
  intros H;
  repeat (apply elem_of_cons in H as [H|H]; [discriminate H|]);
  exact (proj1 (elem_of_nil _) H).

(** Every function handed to the client with the arguments of a call was
    handed to the method with the caller's arguments, by the lemma that what
    is inside a parameter is inside the arguments. *)
Ltac passed_on parameter_passed :=
  let f := fresh in let H := fresh in
  intros f H; unfold handed_over in H; cbn [existsb inside] in H;
  repeat (apply orb_prop in H; destruct H as [H|H]);
  first [discriminate H | exact (parameter_passed _ _ _ H)].

Ltac solve_standard :=
  let err := fresh in let data := fresh in intros err data; reflexivity.

(** A name that no assignment of [setupDataAccessObject] uses. *)
Ltac not_published :=
  let m := fresh in let H := fresh in let E := fresh in
  intros (m & H & E);
  repeat (apply elem_of_cons in H as [H|H]; [subst m; discriminate E|]);
  exact (proj1 (elem_of_nil _) H).

(** What [connect] keeps of the connector, in one branch of [connect]. *)
Ltac connect_kept :=
  cbn [after]; repeat split;
  try tauto; try (intros _; eexists; reflexivity);
  try (intros [? ?]; discriminate);
  try (intros _; cbn [dataSource set_connector];
       match goal with H : dataSource _ = Some _ |- _ => rewrite H end;
       eexists; reflexivity);
  try (let c := fresh in let H := fresh in intros c H; congruence).

(** ** Promises settle once *)

Lemma resolve_data_standard : standard (λ v, v) resolve_data.
Proof. intros err data. reflexivity. Qed.

Lemma resolve_nothing_standard : standard (λ _, VUndefined) resolve_nothing.
Proof. intros err data. reflexivity. Qed.

Lemma resolve_true_standard : standard (λ _, VBool true) resolve_true.
Proof. intros err data. reflexivity. Qed.

Lemma adopt_resolved q : resolved (adopt q) = true.
Proof.
  revert q. fix IH 1. intros [|v|e|]; simpl; try reflexivity.
  destruct v; try reflexivity. apply IH.
Qed.

Lemma resolution_resolved v : resolved (resolution v) = true.
Proof. destruct v; try reflexivity. apply adopt_resolved. Qed.

(** A value that is no promise fulfils the promise it resolves. *)
Lemma resolution_plain v : (∀ q, v ≠ VPromise q) → resolution v = Fulfilled v.
Proof. intros H. destruct v; try reflexivity. exfalso. exact (H _ eq_refl). Qed.

Lemma resolve_resolved v p : resolved p = true → resolve v p = p.
Proof. destruct p; simpl; [discriminate | reflexivity..]. Qed.

Lemma reject_resolved e p : resolved p = true → reject e p = p.
Proof. destruct p; simpl; [discriminate | reflexivity..]. Qed.

Lemma standard_resolved g k err data p :
  standard g k → resolved p = true → k err data p = p.
Proof.
  intros Hk Hp. rewrite Hk.
  destruct (truthy err); [apply reject_resolved | apply resolve_resolved]; exact Hp.
Qed.

Lemma deliver_resolved g k completions p :
  standard g k → resolved p = true → deliver k completions p = p.
Proof.
  intros Hk. revert p.
  induction completions as [|c rest IH]; intros p Hp; [reflexivity|].
  unfold deliver in *. simpl. rewrite (standard_resolved g); [|assumption..].
  apply IH, Hp.
Qed.

Lemma standard_first g k c :
  standard g k → k c.1 c.2 Pending = promise_of g (Some (completion_verdict c)).
Proof.
  intros Hk. rewrite Hk. unfold completion_verdict.
  destruct (truthy c.1); reflexivity.
Qed.

Lemma promise_of_resolved g v : resolved (promise_of g (Some v)) = true.
Proof. destruct v; [reflexivity | apply resolution_resolved]. Qed.

Lemma deliver_pending g k completions :
  standard g k →
  deliver k completions Pending = promise_of g (completion_verdict <$> head completions).
Proof.
  intros Hk. destruct completions as [|c rest]; [reflexivity|].
  unfold deliver. simpl. rewrite (standard_first g); [|assumption].
  apply (deliver_resolved g); [assumption | apply promise_of_resolved].
Qed.

(** The promise of a callback-terminated call is the client's verdict. *)
Lemma new_Promise_forward g k self c m args :
  standard g k → client self = Some c →
  new_Promise (client_call self m args (Some k)) (λ _ p, p)
  = promise_of g (verdict (Request m args true) (respond c (Request m args true))).
Proof.
  intros Hk Hc. unfold new_Promise, client_call, verdict. rewrite Hc. simpl.
  destruct (during _) as [|d rest] eqn:Hd.
  - simpl. destruct (returns _) as [x|e].
    + apply (deliver_pending g), Hk.
    + simpl. apply (deliver_resolved g); [assumption | reflexivity].
  - rewrite (deliver_resolved g k (later _)); [| assumption |].
    + destruct (returns _); [|rewrite reject_resolved].
      * rewrite (deliver_pending g); [reflexivity | assumption].
      * rewrite (deliver_pending g); [reflexivity | assumption].
      * rewrite (deliver_pending g); [|assumption]. apply promise_of_resolved.
    + destruct (returns _); [|rewrite reject_resolved];
        rewrite (deliver_pending g) by assumption; apply promise_of_resolved.
Qed.

(** The promise of a stream-returning call is what the call returned or
    threw. *)
Lemma new_Promise_stream self c m args :
  client self = Some c →
  new_Promise (client_call self m args None) resolve
  = promise_of (λ v, v) (verdict (Request m args false) (respond c (Request m args false))).
Proof.
  intros Hc. unfold new_Promise, client_call, verdict. rewrite Hc. simpl.
  destruct (returns _); reflexivity.
Qed.

(** ** The shape of every method *)

Lemma promise_of_ext g h v : (∀ x, g x = h x) → promise_of g v = promise_of h v.
Proof. intros E. destruct v as [[e|x]|]; simpl; [reflexivity | rewrite E | ]; reflexivity. Qed.

Lemma forward_run g k self c name cargs :
  standard g k → client self = Some c →
  let rq := Request name cargs true in
  forward self name cargs k
  = {| returned := Normal (RetPromise (promise_of g (verdict rq (respond c rq))));
       sent := [rq]; invoked := []; unreturned := None;
       called_by_client := forwarded_calls rq (respond c rq) |}.
Proof.
  intros Hk Hc. simpl. unfold forward.
  rewrite (new_Promise_forward g k self c) by assumption.
  unfold client_call. rewrite Hc. reflexivity.
Qed.

Lemma forward_stream_run self c name cargs :
  client self = Some c →
  let rq := Request name cargs false in
  forward_stream self name cargs
  = {| returned := Normal (RetPromise (promise_of (λ v, v) (verdict rq (respond c rq))));
       sent := [rq]; invoked := []; unreturned := None;
       called_by_client := forwarded_calls rq (respond c rq) |}.
Proof.
  intros Hc. simpl. unfold forward_stream.
  rewrite (new_Promise_stream self c) by assumption.
  unfold client_call. rewrite Hc. reflexivity.
Qed.

Lemma prototype_regular host m self args :
  m ≠ m_getBucketVersioning → m ≠ m_setBucketVersioning →
  m ≠ m_presignedPostPolicy → m ≠ m_setBucketPolicy →
  regular m self (prototype host m self args).
Proof.
  intros H1 H2 H3 H4.
  destruct m; try congruence; simpl;
    try (unfold makeBucket; destruct (is_undefined _));
    first [ apply is_forward; solve_standard
          | apply is_forward_stream; reflexivity ].
Qed.

Lemma presignedPostPolicy_regular host self args rq :
  sent (presignedPostPolicy host self args) = [rq] →
  regular m_presignedPostPolicy self (presignedPostPolicy host self args).
Proof.
  unfold presignedPostPolicy. destruct (client self) as [c|]; [|discriminate].
  destruct (Policy c _); [|discriminate].
  intros _. apply is_forward. solve_standard.
Qed.

Lemma setBucketPolicy_regular host self args rq :
  sent (setBucketPolicy host self args) = [rq] →
  regular m_setBucketPolicy self (setBucketPolicy host self args).
Proof.
  unfold setBucketPolicy. destruct (client self) as [c|]; [|discriminate].
  destruct (stringified host _); [|discriminate].
  intros _. apply is_forward. solve_standard.
Qed.

Lemma regular_run m self c r :
  client self = Some c → regular m self r →
  ∃ rq, r = {| returned := Normal (RetPromise
                  (promise_of (success_value m) (verdict rq (respond c rq))));
               sent := [rq]; invoked := []; unreturned := None;
               called_by_client := forwarded_calls rq (respond c rq) |}.
Proof.
  intros Hc [name cargs k Hk | name cargs Hid].
  - eexists. apply (forward_run _ k); assumption.
  - eexists. rewrite (forward_stream_run self c) by assumption. simpl.
    rewrite (promise_of_ext (λ v, v) (success_value m)); [reflexivity|].
    intros x. symmetry. apply Hid.
Qed.

(** Every method that returns its promise returns the client's verdict on
    the one call it makes. *)
Lemma prototype_promise host m self c args rq :
  m ≠ m_getBucketVersioning → m ≠ m_setBucketVersioning →
  client self = Some c →
  sent (prototype host m self args) = [rq] →
  prototype host m self args
  = {| returned := Normal (RetPromise
          (promise_of (success_value m) (verdict rq (respond c rq))));
       sent := [rq]; invoked := []; unreturned := None;
       called_by_client := forwarded_calls rq (respond c rq) |}.
Proof.
  intros H1 H2 Hc Hs.
  assert (regular m self (prototype host m self args)) as Hr.
  { destruct (decide (m = m_presignedPostPolicy)) as [->|H3].
    { apply (presignedPostPolicy_regular host self args rq), Hs. }
    destruct (decide (m = m_setBucketPolicy)) as [->|H4].
    { apply (setBucketPolicy_regular host self args rq), Hs. }
    apply prototype_regular; assumption. }
  destruct (regular_run m self c _ Hc Hr) as [rq' E].
  rewrite E in Hs. simpl in Hs. injection Hs as ->. exact E.
Qed.

(** ** getBucketVersioning *)

Lemma forwarded_calls_callee rq rp call :
  call ∈ forwarded_calls rq rp →
  ∃ f, call.1 = VFun f ∧ handed_over f (arguments rq) = true.
Proof.
  unfold forwarded_calls. intros H.
  apply list_elem_of_fmap in H as ([f vs] & -> & H).
  apply list_elem_of_filter in H as [H _]. simpl in *.
  exists f. split; [reflexivity|]. apply Is_true_true, H.
Qed.

Lemma deliver_pass_on_function f completions cs :
  deliver (pass_on (VFun f)) completions {| relayed_calls := cs; thrown := None |}
  = {| relayed_calls := cs ++ (relayed (VFun f) <$> completions); thrown := None |}.
Proof.
  revert cs. induction completions as [|c rest IH]; intros cs.
  - unfold deliver. simpl. rewrite app_nil_r. reflexivity.
  - change (deliver (pass_on (VFun f)) (c :: rest) {| relayed_calls := cs; thrown := None |})
      with (deliver (pass_on (VFun f)) rest
              (pass_on (VFun f) c.1 c.2 {| relayed_calls := cs; thrown := None |})).
    unfold pass_on at 2. cbn [thrown truthy relayed_calls]. rewrite IH.
    rewrite fmap_cons, <- app_assoc. reflexivity.
Qed.

Lemma deliver_pass_on_falsy callback completions s :
  truthy callback = false → deliver (pass_on callback) completions s = s.
Proof.
  intros Hcb. induction completions as [|c rest IH]; [reflexivity|].
  change (deliver (pass_on callback) (c :: rest) s)
    with (deliver (pass_on callback) rest (pass_on callback c.1 c.2 s)).
  unfold pass_on at 2. rewrite Hcb. destruct (thrown s); exact IH.
Qed.

Lemma deliver_pass_on_thrown callback completions cs e :
  deliver (pass_on callback) completions {| relayed_calls := cs; thrown := Some e |}
  = {| relayed_calls := cs; thrown := Some e |}.
Proof.
  induction completions as [|c rest IH]; [reflexivity|].
  change (deliver (pass_on callback) (c :: rest) {| relayed_calls := cs; thrown := Some e |})
    with (deliver (pass_on callback) rest
            (pass_on callback c.1 c.2 {| relayed_calls := cs; thrown := Some e |})).
  unfold pass_on at 2. cbn [thrown]. exact IH.
Qed.

Lemma deliver_pass_on_no_function callback c rest cs :
  truthy callback = true → (∀ f, callback ≠ VFun f) →
  deliver (pass_on callback) (c :: rest) {| relayed_calls := cs; thrown := None |}
  = {| relayed_calls := cs; thrown := Some (TypeError "callback is not a function") |}.
Proof.
  intros Hcb Hf.
  change (deliver (pass_on callback) (c :: rest) {| relayed_calls := cs; thrown := None |})
    with (deliver (pass_on callback) rest
            (pass_on callback c.1 c.2 {| relayed_calls := cs; thrown := None |})).
  unfold pass_on at 2. cbn [thrown relayed_calls]. rewrite Hcb.
  destruct callback; try apply deliver_pass_on_thrown.
  exfalso. exact (Hf _ eq_refl).
Qed.

Lemma getBucketVersioning_sent self c args :
  client self = Some c →
  sent (getBucketVersioning self args)
  = [Request "getBucketVersioning" [VObj [("Bucket", param 0 args)]] true]
  ∧ called_by_client (getBucketVersioning self args)
    = forwarded_calls
        (Request "getBucketVersioning" [VObj [("Bucket", param 0 args)]] true)
        (respond c (Request "getBucketVersioning"
                      [VObj [("Bucket", param 0 args)]] true)).
Proof.
  intros Hc. unfold getBucketVersioning, client_call. rewrite Hc.
  cbn [sent called_by_client requests calls]. split; reflexivity.
Qed.

Lemma getBucketVersioning_never_a_promise self args p :
  returned (getBucketVersioning self args) ≠ Normal (RetPromise p).
Proof.
  unfold getBucketVersioning. cbn [returned].
  destruct (thrown _); [discriminate|]. destruct (outcome _); discriminate.
Qed.

(** With a function as callback every completion is passed on, and what the
    client's call throws comes out. *)
Lemma getBucketVersioning_function self c args f :
  client self = Some c → param 1 args = VFun f →
  let rp := respond c (Request "getBucketVersioning"
                         [VObj [("Bucket", param 0 args)]] true) in
  returned (getBucketVersioning self args)
  = match returns rp with
    | Normal _ => Normal RetUndefined
    | Throw e => Throw e
    end
  ∧ invoked (getBucketVersioning self args)
    = relayed (VFun f) <$> (during rp ++ later rp)%list.
Proof.
  intros Hc Hf. unfold getBucketVersioning, client_call. rewrite Hc, Hf.
  cbn [now outcome afterwards returned invoked].
  rewrite deliver_pass_on_function. cbn [thrown relayed_calls].
  rewrite deliver_pass_on_function. cbn [relayed_calls].
  rewrite fmap_app. split; reflexivity.
Qed.

(** Without a callback nothing is called. *)
Lemma getBucketVersioning_no_callback self c args :
  client self = Some c → truthy (param 1 args) = false →
  let rp := respond c (Request "getBucketVersioning"
                         [VObj [("Bucket", param 0 args)]] true) in
  returned (getBucketVersioning self args)
  = match returns rp with
    | Normal _ => Normal RetUndefined
    | Throw e => Throw e
    end
  ∧ invoked (getBucketVersioning self args) = [].
Proof.
  intros Hc Hf. unfold getBucketVersioning, client_call. rewrite Hc.
  cbn [now outcome afterwards returned invoked].
  rewrite !(deliver_pass_on_falsy _ _ _ Hf). cbn [thrown relayed_calls].
  rewrite ?(deliver_pass_on_falsy _ _ _ Hf). split; reflexivity.
Qed.

(** With a callback that is truthy and no function nothing is called, and a
    completion during the client's call ends it in a [TypeError]. *)
Lemma getBucketVersioning_no_function self c args :
  client self = Some c → truthy (param 1 args) = true →
  (∀ f, param 1 args ≠ VFun f) →
  let rp := respond c (Request "getBucketVersioning"
                         [VObj [("Bucket", param 0 args)]] true) in
  returned (getBucketVersioning self args)
  = match during rp with
    | [] => match returns rp with
            | Normal _ => Normal RetUndefined
            | Throw e => Throw e
            end
    | _ :: _ => Throw (TypeError "callback is not a function")
    end
  ∧ invoked (getBucketVersioning self args) = [].
Proof.
  intros Hc Ht Hf. unfold getBucketVersioning, client_call. rewrite Hc.
  cbn [now outcome afterwards returned invoked].
  assert (∀ l, relayed_calls (deliver (pass_on (param 1 args)) l
                                {| relayed_calls := []; thrown := None |}) = [])
    as Hnone.
  { intros [|l rest]; [reflexivity|].
    rewrite deliver_pass_on_no_function by assumption. reflexivity. }
  destruct (during _) as [|d rest].
  - unfold deliver at 1 2. cbn [foldl thrown relayed_calls].
    split; [reflexivity | apply Hnone].
  - rewrite deliver_pass_on_no_function by assumption. cbn [thrown relayed_calls].
    split; [reflexivity | apply Hnone].
Qed.

Lemma function_or_not (v : value) : (∃ f, v = VFun f) ∨ (∀ f, v ≠ VFun f).
Proof. destruct v; try (right; discriminate). left. eexists. reflexivity. Qed.

Lemma callback_outcome_falsy callback rp :
  truthy callback = false →
  callback_outcome callback rp
  = match returns rp with
    | Normal _ => Normal RetUndefined
    | Throw e => Throw e
    end.
Proof.
  intros Ht. unfold callback_outcome.
  destruct callback; try discriminate Ht; try rewrite Ht; destruct (during rp); reflexivity.
Qed.

Lemma callback_outcome_no_function callback rp :
  truthy callback = true → (∀ f, callback ≠ VFun f) →
  callback_outcome callback rp
  = match during rp with
    | [] => match returns rp with
            | Normal _ => Normal RetUndefined
            | Throw e => Throw e
            end
    | _ :: _ => Throw (TypeError "callback is not a function")
    end.
Proof.
  intros Ht Hf. unfold callback_outcome.
  destruct callback; try discriminate Ht; try rewrite Ht;
    try (destruct (during rp); reflexivity).
  exfalso. exact (Hf _ eq_refl).
Qed.

Lemma callback_calls_no_function callback rp :
  (∀ f, callback ≠ VFun f) → callback_calls callback rp = [].
Proof.
  intros Hf. unfold callback_calls. destruct callback; try reflexivity.
  exfalso. exact (Hf _ eq_refl).
Qed.

(** [getBucketVersioning], whatever callback it is given. *)
Lemma getBucketVersioning_run self c args :
  client self = Some c →
  let rq := Request "getBucketVersioning" [VObj [("Bucket", param 0 args)]] true in
  getBucketVersioning self args
  = {| returned := callback_outcome (param 1 args) (respond c rq);
       sent := [rq];
       invoked := callback_calls (param 1 args) (respond c rq);
       unreturned := None;
       called_by_client := forwarded_calls rq (respond c rq) |}.
Proof.
  intros Hc rq.
  destruct (getBucketVersioning_sent self c args Hc) as [Hs Hcalled].
  assert (returned (getBucketVersioning self args)
          = callback_outcome (param 1 args) (respond c rq)
          ∧ invoked (getBucketVersioning self args)
            = callback_calls (param 1 args) (respond c rq)) as [Hr Hi].
  { destruct (function_or_not (param 1 args)) as [[f Hp]|Hnf].
    - destruct (getBucketVersioning_function self c args f Hc Hp) as [Hr Hi].
      rewrite Hr, Hi, Hp. split; reflexivity.
    - rewrite (callback_calls_no_function _ _ Hnf).
      destruct (truthy (param 1 args)) eqn:Ht.
      + rewrite (callback_outcome_no_function _ _ Ht Hnf).
        exact (getBucketVersioning_no_function self c args Hc Ht Hnf).
      + rewrite (callback_outcome_falsy _ _ Ht).
        exact (getBucketVersioning_no_callback self c args Hc Ht). }
  assert (unreturned (getBucketVersioning self args) = None) as Hu by reflexivity.
  destruct (getBucketVersioning self args) as [r s i u cc]. simpl in *.
  subst. reflexivity.
Qed.

(** What a function given as callback sees of the first thing the client
    reports. *)
Lemma callback_sees_failure f rp rq err :
  with_callback rq = true →
  verdict rq rp = Some (inl err) →
  callback_outcome (VFun f) rp = Throw err
  ∨ head (callback_calls (VFun f) rp) = Some (VFun f, [err]).
Proof.
  unfold verdict, callback_outcome, callback_calls, completion_verdict, relayed.
  intros -> Hv. destruct (during rp) as [|c l].
  - destruct (returns rp) as [x|e].
    + right. destruct (later rp) as [|c l]; [discriminate Hv|].
      cbn in Hv |- *. destruct (truthy c.1); [|discriminate Hv].
      injection Hv as <-. reflexivity.
    + left. injection Hv as <-. reflexivity.
  - right. cbn in Hv |- *. destruct (truthy c.1); [|discriminate Hv].
    injection Hv as <-. reflexivity.
Qed.

Lemma callback_sees_success f rp rq v :
  with_callback rq = true →
  verdict rq rp = Some (inr v) →
  head (callback_calls (VFun f) rp) = Some (VFun f, [VNull; v]).
Proof.
  unfold verdict, callback_calls, completion_verdict, relayed.
  intros -> Hv. destruct (during rp) as [|c l].
  - destruct (returns rp) as [x|e]; [|discriminate Hv].
    destruct (later rp) as [|c l]; [discriminate Hv|].
    cbn in Hv |- *. destruct (truthy c.1); [discriminate Hv|].
    injection Hv as <-. reflexivity.
  - cbn in Hv |- *. destruct (truthy c.1); [discriminate Hv|].
    injection Hv as <-. reflexivity.
Qed.

(** ** Failures and results of the client *)

(** C1, as the code has it.  When the one client call a method makes reports
    the failure [err], the promise the method returns is rejected with
    [err] itself; this holds for every method that always returns its
    promise.  [getBucketVersioning] returns no promise.  Given a function as
    callback it passes every completion of the client on to it, an error as
    [callback(err)] with the error unchanged, so that the failure reported
    first is the first thing the callback is called with; given no callback
    it calls nothing and the error is dropped; what the client's call throws
    comes out of [getBucketVersioning] as it is.  ([setBucketVersioning] and
    [presignedPostPolicy] are left aside.) *)
Theorem failure_is_surfaced_unchanged host m self c args rq err :
  m ≠ m_setBucketVersioning → m ≠ m_presignedPostPolicy →
  client self = Some c →
  sent (prototype host m self args) = [rq] →
  verdict rq (respond c rq) = Some (inl err) →
  if decide (m = m_getBucketVersioning)
  then (∀ p, returned (prototype host m self args) ≠ Normal (RetPromise p))
       ∧ returned (prototype host m self args)
         = callback_outcome (param 1 args) (respond c rq)
       ∧ invoked (prototype host m self args)
         = callback_calls (param 1 args) (respond c rq)
       ∧ (∀ f, param 1 args = VFun f →
            returned (prototype host m self args) = Throw err
            ∨ head (invoked (prototype host m self args)) = Some (VFun f, [err]))
  else returned (prototype host m self args) = Normal (RetPromise (Rejected err)).
Proof.
  intros Hm Hp Hc Hs Hv. destruct (decide (m = m_getBucketVersioning)) as [->|Hg].
  - cbn [prototype] in *.
    split; [intros p; apply getBucketVersioning_never_a_promise|].
    rewrite (getBucketVersioning_run self c args Hc) in *.
    cbn [sent returned invoked] in *. injection Hs as <-.
    split; [reflexivity|]. split; [reflexivity|].
    intros f ->. eapply callback_sees_failure; [|exact Hv]; reflexivity.
  - rewrite (prototype_promise host m self c args rq) by assumption.
    simpl. rewrite Hv. reflexivity.
Qed.

Lemma failure_is_surfaced_unchanged_witness :
  let self := ready_connector (failing_client NoSuchKey) in
  let args := [VStr "test"; VStr "missing.txt"] in
  returned (prototype (sample_host (Throw InvalidEndpoint)) m_removeObject self args)
  = Normal (RetPromise (Rejected NoSuchKey)).
Proof.
  intros self args.
  apply (failure_is_surfaced_unchanged (sample_host (Throw InvalidEndpoint))
           m_removeObject self (failing_client NoSuchKey) args
           (Request "removeObject" [VStr "test"; VStr "missing.txt"; VUndefined] true)
           NoSuchKey);
    [discriminate | discriminate | reflexivity | reflexivity | reflexivity].
Defined.

(** C1 as stated fails at the two methods it names: neither returns a
    promise, so the client's failure is not a rejection of what they
    return. *)
Lemma versioning_failure_is_not_a_rejection :
  let c := failing_client NoSuchKey in
  let self := ready_connector c in
  let get := getBucketVersioning self [VStr "test"; VFun 1] in
  let set := setBucketVersioning self [VStr "test"; VObj [("Status", VStr "Enabled")]] in
  (∃ rq, sent get = [rq] ∧ verdict rq (respond c rq) = Some (inl NoSuchKey))
  ∧ returned get = Normal RetUndefined
  ∧ returned get ≠ Normal (RetPromise (Rejected NoSuchKey))
  ∧ (∃ rq, sent set = [rq] ∧ verdict rq (respond c rq) = Some (inl NoSuchKey))
  ∧ returned set = Normal RetUndefined
  ∧ returned set ≠ Normal (RetPromise (Rejected NoSuchKey)).
Proof.
  simpl. repeat split; try discriminate; eexists; split; reflexivity.
Qed.

(** C2, as the code has it.  When the one client call a method makes
    succeeds with [v], the promise the method returns is resolved with [v]
    itself, or with [undefined] for the methods whose callback takes no
    value: it is fulfilled with that value, unless the value is a promise (as
    the client's stream calls may return), which it then follows.
    [getBucketVersioning] returns no promise; given a function as callback
    it passes every completion on to it, a success as [callback(null, v)];
    given no callback it calls nothing.  ([setBucketVersioning],
    [removeObject] and [presignedPostPolicy] are left aside.) *)
Theorem success_is_passed_through host m self c args rq v :
  m ≠ m_setBucketVersioning → m ≠ m_removeObject → m ≠ m_presignedPostPolicy →
  client self = Some c →
  sent (prototype host m self args) = [rq] →
  verdict rq (respond c rq) = Some (inr v) →
  if decide (m = m_getBucketVersioning)
  then (∀ p, returned (prototype host m self args) ≠ Normal (RetPromise p))
       ∧ returned (prototype host m self args)
         = callback_outcome (param 1 args) (respond c rq)
       ∧ invoked (prototype host m self args)
         = callback_calls (param 1 args) (respond c rq)
       ∧ (∀ f, param 1 args = VFun f →
            head (invoked (prototype host m self args))
            = Some (VFun f, [VNull; v]))
  else returned (prototype host m self args)
       = Normal (RetPromise (resolution
           (if decide (m ∈ resolves_nothing) then VUndefined else v)))
       ∧ ((∀ q, v ≠ VPromise q) →
          returned (prototype host m self args)
          = Normal (RetPromise (Fulfilled
              (if decide (m ∈ resolves_nothing) then VUndefined else v)))).
Proof.
  intros Hm Hr Hp Hc Hs Hv. destruct (decide (m = m_getBucketVersioning)) as [->|Hg].
  - cbn [prototype] in *.
    split; [intros p; apply getBucketVersioning_never_a_promise|].
    rewrite (getBucketVersioning_run self c args Hc) in *.
    cbn [sent returned invoked] in *. injection Hs as <-.
    split; [reflexivity|]. split; [reflexivity|].
    intros f ->. eapply callback_sees_success; [|exact Hv]; reflexivity.
  - rewrite (prototype_promise host m self c args rq) by assumption.
    cbn [returned]. rewrite Hv. cbn [promise_of]. unfold success_value.
    destruct (decide (m = m_removeObject)); [contradiction|].
    split; [reflexivity|]. intros Hq.
    destruct (decide (m ∈ resolves_nothing)); [reflexivity|].
    rewrite (resolution_plain v Hq). reflexivity.
Qed.

Lemma success_is_passed_through_witness :
  let buckets := VArr [VObj [("name", VStr "test")]] in
  returned (prototype (sample_host (Throw InvalidEndpoint)) m_listBuckets
              (ready_connector (succeeding_client buckets)) [])
  = Normal (RetPromise (Fulfilled buckets)).
Proof.
  intros buckets.
  apply (success_is_passed_through (sample_host (Throw InvalidEndpoint))
           m_listBuckets (ready_connector (succeeding_client buckets))
           (succeeding_client buckets) [] (Request "listBuckets" [] true) buckets);
    first [discriminate | reflexivity | intros q; discriminate].
Defined.

(** C2 as stated fails: the client's [removeObject] succeeds with no value
    and the promise is fulfilled with [true]; [getBucketVersioning] returns
    no promise to fulfil. *)
Lemma success_is_not_always_passed_through :
  let c := succeeding_client VUndefined in
  let self := ready_connector c in
  let remove := removeObject self [VStr "test"; VStr "test-object.txt"] in
  let c' := succeeding_client (VObj [("Status", VStr "Enabled")]) in
  let get := getBucketVersioning (ready_connector c') [VStr "test"; VFun 1] in
  (∃ rq, sent remove = [rq] ∧ verdict rq (respond c rq) = Some (inr VUndefined))
  ∧ returned remove = Normal (RetPromise (Fulfilled (VBool true)))
  ∧ returned remove ≠ Normal (RetPromise (Fulfilled VUndefined))
  ∧ (∃ rq, sent get = [rq]
           ∧ verdict rq (respond c' rq) = Some (inr (VObj [("Status", VStr "Enabled")])))
  ∧ returned get = Normal RetUndefined.
Proof.
  simpl. repeat split; try discriminate; eexists; split; reflexivity.
Qed.

(** ** One outcome per call *)

Lemma regular_returns_promise m self r :
  regular m self r →
  ∃ p, r = {| returned := Normal (RetPromise p); sent := sent r; invoked := [];
              unreturned := None; called_by_client := called_by_client r |}.
Proof. intros [name cargs k _ | name cargs _]; eexists; reflexivity. Qed.

Lemma inside_param f i args :
  inside f (param i args) = true → handed_over f args = true.
Proof.
  unfold param, handed_over. destruct (args !! i) as [a|] eqn:E; simpl; [|discriminate].
  intros H. apply existsb_exists. exists a. split; [|exact H].
  apply list_elem_of_In, list_elem_of_lookup. exists i. exact E.
Qed.

Lemma forward_called self name cargs k call :
  call ∈ called_by_client (forward self name cargs k) →
  ∃ f, call.1 = VFun f ∧ handed_over f cargs = true.
Proof.
  unfold forward, client_call. destruct (client self) as [c|]; cbn [called_by_client calls].
  - apply forwarded_calls_callee.
  - intros H. apply elem_of_nil in H. contradiction.
Qed.

Lemma forward_stream_called self name cargs call :
  call ∈ called_by_client (forward_stream self name cargs) →
  ∃ f, call.1 = VFun f ∧ handed_over f cargs = true.
Proof.
  unfold forward_stream, client_call.
  destruct (client self) as [c|]; cbn [called_by_client calls].
  - apply forwarded_calls_callee.
  - intros H. apply elem_of_nil in H. contradiction.
Qed.

Lemma stringified_no_function host v policy f :
  stringified host v = Normal policy → inside f policy = false.
Proof.
  unfold stringified. destruct (JSON_stringify host v) as [[s|]|e]; intros E;
    [injection E as <-; reflexivity | injection E as <-; reflexivity | discriminate E].
Qed.

(** The functions the client can call on account of a method call are those
    the caller handed to the method, among its arguments or inside them. *)
Lemma called_by_client_passed host m self args call :
  m ≠ m_presignedPostPolicy →
  call ∈ called_by_client (prototype host m self args) →
  ∃ f, call.1 = VFun f ∧ handed_over f args = true.
Proof.
  intros Hp.
  assert (∀ cargs : list value,
            (∀ f, handed_over f cargs = true → handed_over f args = true) →
            (∃ f, call.1 = VFun f ∧ handed_over f cargs = true) →
            ∃ f, call.1 = VFun f ∧ handed_over f args = true) as Hin.
  { intros cargs H (f & E & Hf). exists f. split; [exact E | apply H, Hf]. }
  destruct (decide (m = m_setBucketPolicy)) as [->|Hb].
  { cbn [prototype]. unfold setBucketPolicy. destruct (client self) as [c|].
    - destruct (stringified host _) as [policy|e] eqn:E; intros H.
      + apply forward_called in H. (eapply Hin; [|exact H]). clear H.
        intros f Hf. unfold handed_over in Hf. cbn [existsb] in Hf.
        rewrite (stringified_no_function _ _ _ f E) in Hf.
        apply orb_prop in Hf as [Hf|Hf]; [exact (inside_param _ _ _ Hf) | discriminate Hf].
      + apply elem_of_nil in H. contradiction.
    - intros H. apply elem_of_nil in H. contradiction. }
  destruct (decide (m = m_getBucketVersioning)) as [->|Hg].
  { cbn [prototype]. intros H.
    destruct (client self) as [c|] eqn:Hc.
    - rewrite (proj2 (getBucketVersioning_sent self c args Hc)) in H.
      apply forwarded_calls_callee in H. cbn [arguments] in H.
      (eapply Hin; [|exact H]); passed_on inside_param.
    - exfalso. revert H. unfold getBucketVersioning, client_call. rewrite Hc.
      apply not_elem_of_nil. }
  destruct (decide (m = m_setBucketVersioning)) as [->|Hs].
  { cbn [prototype]. unfold setBucketVersioning, client_call.
    destruct (client self) as [c|]; cbn [called_by_client calls]; intros H.
    - apply forwarded_calls_callee in H. cbn [arguments] in H.
      (eapply Hin; [|exact H]); passed_on inside_param.
    - apply elem_of_nil in H. contradiction. }
  destruct m; try congruence; simpl;
    try (unfold makeBucket; destruct (is_undefined _));
    (intros H;
     first [apply forward_called in H | apply forward_stream_called in H];
     (eapply Hin; [|exact H]); passed_on inside_param).
Qed.

(** C7, as the code has it.  Every method other than [getBucketVersioning]
    returns a promise on every call, calls no function of the caller itself
    and keeps no promise to itself.  A function the method hands to the
    client with the arguments of the call may be called by the client, and
    every function so called is one the caller handed to the method, among
    its arguments or inside them.  Once the client's call
    has reported anything the promise is resolved for good: it is settled,
    unless what was reported is a promise, which it then follows.
    [getBucketVersioning] never returns a promise: what it has to report goes
    to the caller's callback, and it returns [undefined] or throws.
    ([setBucketVersioning] and [presignedPostPolicy] are left aside.) *)
Theorem one_asynchronous_outcome host m self args :
  m ≠ m_setBucketVersioning → m ≠ m_presignedPostPolicy →
  if decide (m = m_getBucketVersioning)
  then (∀ p, returned (prototype host m self args) ≠ Normal (RetPromise p))
       ∧ ∀ c, client self = Some c →
           ∃ rq, sent (prototype host m self args) = [rq]
                 ∧ returned (prototype host m self args)
                   = callback_outcome (param 1 args) (respond c rq)
                 ∧ invoked (prototype host m self args)
                   = callback_calls (param 1 args) (respond c rq)
  else ∃ p, returned (prototype host m self args) = Normal (RetPromise p)
            ∧ invoked (prototype host m self args) = []
            ∧ unreturned (prototype host m self args) = None
            ∧ (∀ call, call ∈ called_by_client (prototype host m self args) →
                 ∃ f, call.1 = VFun f ∧ handed_over f args = true)
            ∧ ∀ c rq, client self = Some c →
                sent (prototype host m self args) = [rq] →
                called_by_client (prototype host m self args)
                = forwarded_calls rq (respond c rq)
                ∧ ∀ report, verdict rq (respond c rq) = Some report →
                    resolved p = true
                    ∧ (settled p = false →
                       ∃ q, report = inr (VPromise q) ∧ p = adopt q).
Proof.
  intros Hs Hp. destruct (decide (m = m_getBucketVersioning)) as [->|Hg].
  - cbn [prototype]. split; [intros p; apply getBucketVersioning_never_a_promise|].
    intros c Hc. rewrite (getBucketVersioning_run self c args Hc).
    eexists. repeat split.
  - assert (∃ p, returned (prototype host m self args) = Normal (RetPromise p)
                 ∧ invoked (prototype host m self args) = []
                 ∧ unreturned (prototype host m self args) = None) as (p & Hr & Hi & Hu).
    { destruct (decide (m = m_setBucketPolicy)) as [->|Hb].
      - cbn [prototype]. unfold setBucketPolicy.
        destruct (client self); [destruct (stringified host _)|];
          eexists; repeat split.
      - pose proof (prototype_regular host m self args Hg Hs Hp Hb) as Hreg.
        destruct (regular_returns_promise m self _ Hreg) as [p E].
        exists p. rewrite E. repeat split. }
    exists p. split; [exact Hr|]. split; [exact Hi|]. split; [exact Hu|].
    split; [intros call; apply called_by_client_passed, Hp|].
    intros c rq Hc Hsent.
    pose proof (prototype_promise host m self c args rq Hg Hs Hc Hsent) as E.
    rewrite E in Hr. cbn [returned] in Hr. injection Hr as <-.
    split; [rewrite E; reflexivity|].
    intros report ->. split; [apply promise_of_resolved|].
    destruct report as [e|x]; cbn [promise_of settled]; [discriminate|].
    unfold success_value.
    destruct (decide (m = m_removeObject)); [discriminate|].
    destruct (decide (m ∈ resolves_nothing)); [discriminate|].
    destruct x; try discriminate. intros _. eexists. split; reflexivity.
Qed.

Lemma one_asynchronous_outcome_witness :
  ∃ p, returned (prototype (sample_host (Throw InvalidEndpoint)) m_listIncompleteUploads
                   (ready_connector (succeeding_client (VHost 3)))
                   [VStr "test"; VStr ""; VBool true; VFun 1])
       = Normal (RetPromise p)
       ∧ invoked (prototype (sample_host (Throw InvalidEndpoint)) m_listIncompleteUploads
                   (ready_connector (succeeding_client (VHost 3)))
                   [VStr "test"; VStr ""; VBool true; VFun 1]) = [].
Proof.
  destruct (one_asynchronous_outcome (sample_host (Throw InvalidEndpoint))
              m_listIncompleteUploads (ready_connector (succeeding_client (VHost 3)))
              [VStr "test"; VStr ""; VBool true; VFun 1])
    as (p & Hp & Hi & _); [discriminate | discriminate |].
  exists p. split; assumption.
Defined.

(** C7 as stated fails at [getBucketVersioning]: it takes the caller's
    callback, hands the client's result to it and returns [undefined].
    Two more methods return no promise: [setBucketVersioning] keeps the one
    it makes, and [presignedPostPolicy] throws when the client has no
    [Policy] constructor.  And a method that does return a promise delivers
    through a callback all the same when the caller passes one in the place
    of an option and the client takes it for its completion callback, as the
    repository's test of [getObject] does. *)
Lemma getBucketVersioning_is_callback_only :
  let host := sample_host (Throw InvalidEndpoint) in
  let data := VObj [("Status", VStr "Enabled")] in
  let self := ready_connector (succeeding_client data) in
  let get := prototype host m_getBucketVersioning self [VStr "test"; VFun 1] in
  let set := prototype host m_setBucketVersioning self [VStr "test"; data] in
  let post := prototype host m_presignedPostPolicy
                (ready_connector (client_without_Policy data))
                [VStr "test"; VStr "o"; VStr "a/"; VNum 60] in
  returned get = Normal RetUndefined
  ∧ invoked get = [(VFun 1, [VNull; data])]
  ∧ ¬ (∃ p, returned get = Normal (RetPromise p))
  ∧ returned set = Normal RetUndefined
  ∧ unreturned set = Some (Fulfilled data)
  ∧ returned post = Throw (TypeError "self.client.Policy is not a constructor")
  ∧ (let object :=
       prototype host m_getObject (ready_connector (callback_or_promise_client (VHost 5)))
         [VStr "test"; VStr "test-object.txt"; VFun 2] in
     returned object = Normal (RetPromise (Fulfilled VUndefined))
     ∧ called_by_client object = [(VFun 2, [VNull; VHost 5])]).
Proof.
  simpl. repeat split. intros [p H]. discriminate.
Qed.

(** ** What the client is handed *)

Lemma params_exact n args : length args = n → params n args = args.
Proof.
  intros <-. unfold params, param. apply list_eq. intros i.
  rewrite list_lookup_fmap.
  destruct (decide (i < length args)) as [Hi|Hi].
  - rewrite lookup_seq_lt by assumption. simpl.
    destruct (lookup_lt_is_Some_2 args i Hi) as [x Hx]. rewrite Hx. reflexivity.
  - rewrite lookup_seq_ge by lia. simpl. symmetry. apply lookup_ge_None. lia.
Qed.

Lemma forward_sent self c name cargs k :
  client self = Some c → sent (forward self name cargs k) = [Request name cargs true].
Proof. intros Hc. unfold forward, client_call. rewrite Hc. reflexivity. Qed.

Lemma forward_stream_sent self c name cargs :
  client self = Some c → sent (forward_stream self name cargs) = [Request name cargs false].
Proof. intros Hc. unfold forward_stream, client_call. rewrite Hc. reflexivity. Qed.

(** C8, as the code has it.  Every method that does not build its own
    argument for the client makes one call, with its declared parameters in
    their positions: the value in position [i] is the caller's [i]-th
    argument, [undefined] where the caller passed fewer, and what the caller
    passed beyond the declared parameters is not handed on.  The three
    tagging methods hand on the parameters before the [callback] they
    declare, and not that one.  [makeBucket] leaves an undefined [region]
    out.  [setBucketPolicy] hands on the bucket name and [JSON.stringify] of
    the policy; when [JSON.stringify] throws it makes no call and returns
    its promise rejected with what was thrown. *)
Theorem arguments_are_forwarded host m self c args :
  m ∉ repackaging →
  client self = Some c →
  if decide (m = m_setBucketPolicy)
  then match stringified host (param 1 args) with
       | Normal policy =>
           sent (prototype host m self args)
           = [Request "setBucketPolicy" [param 0 args; policy] true]
       | Throw e =>
           sent (prototype host m self args) = []
           ∧ returned (prototype host m self args) = Normal (RetPromise (Rejected e))
       end
  else ∃ rq, sent (prototype host m self args) = [rq]
             ∧ arguments rq
               = if decide (m = m_makeBucket)
                 then (if is_undefined (param 1 args) then [param 0 args]
                       else params 2 args)
                 else if decide (m ∈ unused_callback)
                      then params (formals m - 1) args
                      else params (formals m) args.
Proof.
  intros Hm Hc. unfold repackaging in Hm.
  destruct (decide (m = m_setBucketPolicy)) as [->|Hb].
  - cbn [prototype]. unfold setBucketPolicy. rewrite Hc.
    destruct (stringified host _) as [policy|e].
    + apply (forward_sent self c), Hc.
    + split; reflexivity.
  - destruct m; try congruence; simpl;
      try (exfalso; apply Hm; repeat constructor; fail);
      try (unfold makeBucket; destruct (is_undefined _));
      first [ erewrite forward_sent by eassumption
            | erewrite forward_stream_sent by eassumption
            | unfold setBucketVersioning, client_call; rewrite Hc ];
      eexists; split; reflexivity.
Qed.

Lemma arguments_are_forwarded_witness :
  ∃ rq, sent (prototype (sample_host (Throw InvalidEndpoint)) m_putObject
                (ready_connector (succeeding_client (VObj [("etag", VStr "e")])))
                [VStr "test"; VStr "test-object.txt"; VStr "content"]) = [rq]
        ∧ arguments rq = [VStr "test"; VStr "test-object.txt"; VStr "content";
                          VUndefined; VUndefined].
Proof.
  destruct (arguments_are_forwarded (sample_host (Throw InvalidEndpoint)) m_putObject
              (ready_connector (succeeding_client (VObj [("etag", VStr "e")])))
              (succeeding_client (VObj [("etag", VStr "e")]))
              [VStr "test"; VStr "test-object.txt"; VStr "content"])
    as (rq & Hs & Ha); [unfold repackaging; not_listed | reflexivity |].
  exists rq. split; [exact Hs | exact Ha].
Defined.

(** C8 as stated fails at the two methods it names and at the others that
    build their own argument: the client is not handed the values the caller
    passed.  Nor is it by [makeBucket] when the region passed is
    [undefined], as in the repository's test, nor by a tagging method given
    the callback it declares. *)
Lemma arguments_are_repackaged :
  let host := sample_host (Throw InvalidEndpoint) in
  let self := ready_connector (succeeding_client VUndefined) in
  let b := VStr "test" in
  sent (prototype host m_listObjectsV2 self [b; VStr "a/"; VBool true])
  = [Request "listObjectsV2"
       [VObj [("Bucket", b); ("Prefix", VStr "a/"); ("Recursive", VBool true)]] false]
  ∧ sent (prototype host m_setBucketPolicy self [b; VObj []])
    = [Request "setBucketPolicy" [b; VStr "{}"] true]
  ∧ sent (prototype host m_listIncompleteUploads self [b; VStr "a/"; VBool true])
    = [Request "listIncompleteUploads"
         [VObj [("Bucket", b); ("Prefix", VStr "a/"); ("Recursive", VBool true)]] false]
  ∧ sent (prototype host m_getBucketVersioning self [b])
    = [Request "getBucketVersioning" [VObj [("Bucket", b)]] true]
  ∧ sent (prototype host m_removeAllBucketNotification self [b])
    = [Request "setBucketNotification"
         [b; VObj [("QueueConfiguration", VObj []); ("TopicConfiguration", VObj []);
                   ("LambdaFunctionConfiguration", VObj [])]] true]
  ∧ sent (prototype host m_presignedPostPolicy self [b; VStr "o"; VStr "a/"; VNum 60])
    = [Request "presignedPostPolicy"
         [VObj [("expiration", VHost 1);
                ("conditions", VArr [VArr [VStr "starts-with"; VStr "$key"; VStr "o"];
                                     VObj [("bucket", b)];
                                     VObj [("acl", VStr "private")]])]] true]
  ∧ (∀ m args, (m, args) ∈ [(m_listObjectsV2, [b; VStr "a/"; VBool true]);
                            (m_setBucketPolicy, [b; VObj []]);
                            (m_listIncompleteUploads, [b; VStr "a/"; VBool true]);
                            (m_getBucketVersioning, [b]);
                            (m_removeAllBucketNotification, [b]);
                            (m_presignedPostPolicy, [b; VStr "o"; VStr "a/"; VNum 60]);
                            (m_makeBucket, [b; VUndefined]);
                            (m_getBucketTagging, [b; VFun 1])] →
       ¬ ∃ rq, sent (prototype host m self args) = [rq] ∧ arguments rq = args).
Proof.
  simpl. repeat split.
  intros m args Hin [rq [Hs Ha]].
  repeat (apply elem_of_cons in Hin as [Hin|Hin];
          [ injection Hin as Hm Hargs; subst m args; simpl in Hs;
            injection Hs as Hrq; subst rq; discriminate Ha |]).
  apply elem_of_nil in Hin. exact Hin.
Qed.

(** C6.  [makeBucket] calls the client's [makeBucket] with the bucket name
    and the callback alone exactly when [region] is undefined, and with the
    bucket name, the region and the callback otherwise: nothing but
    [region === undefined] selects the variant. *)
Theorem makeBucket_variant self c args :
  client self = Some c →
  (param 1 args = VUndefined →
     sent (makeBucket self args) = [Request "makeBucket" [param 0 args] true])
  ∧ (param 1 args ≠ VUndefined →
     sent (makeBucket self args)
     = [Request "makeBucket" [param 0 args; param 1 args] true]).
Proof.
  intros Hc. unfold makeBucket. split; intros Hr.
  - rewrite Hr. simpl. apply (forward_sent self c), Hc.
  - destruct (param 1 args); try contradiction; simpl; apply (forward_sent self c), Hc.
Qed.

Lemma makeBucket_variant_witness :
  let self := ready_connector (succeeding_client VUndefined) in
  sent (makeBucket self [VStr "test"]) = [Request "makeBucket" [VStr "test"] true]
  ∧ sent (makeBucket self [VStr "test"; VStr "us-east-1"])
    = [Request "makeBucket" [VStr "test"; VStr "us-east-1"] true].
Proof.
  intros self. split.
  - apply (makeBucket_variant self (succeeding_client VUndefined) [VStr "test"]);
      reflexivity.
  - apply (makeBucket_variant self (succeeding_client VUndefined)
             [VStr "test"; VStr "us-east-1"]); [reflexivity | discriminate].
Defined.

(** ** connect *)

Lemma indexOf_spec names x :
  (x ∈ names → (0 ≤ indexOf names x)%Z) ∧ (x ∉ names → indexOf names x = (-1)%Z).
Proof.
  induction names as [|y rest [IHin IHout]]; simpl.
  - split; [intros H; apply elem_of_nil in H; contradiction | reflexivity].
  - destruct (String.eqb_spec y x) as [->|Hne].
    + split; [lia | intros H; exfalso; apply H; left].
    + split.
      * intros H. apply elem_of_cons in H as [H|H]; [congruence|].
        specialize (IHin H). destruct (Z.ltb_spec (indexOf rest x) 0); lia.
      * intros H. rewrite IHout; [reflexivity|].
        intros H'. apply H. right. exact H'.
Qed.

Lemma indexOf_found names x :
  (indexOf names x >? -1)%Z = bool_decide (x ∈ names).
Proof.
  destruct (indexOf_spec names x) as [Hin Hout].
  destruct (decide (x ∈ names)) as [H|H].
  - rewrite bool_decide_eq_true_2 by assumption. specialize (Hin H). lia.
  - rewrite bool_decide_eq_false_2 by assumption. rewrite (Hout H). reflexivity.
Qed.

Lemma validOptions_fold (settings : gmap string value) keys (acc : gmap string value) k :
  foldl (λ (acc : gmap string value) option,
           if (indexOf validOptionNames option >? -1)%Z
           then <[option := settings !!! option]> acc
           else acc) acc keys !! k
  = if decide (k ∈ keys ∧ k ∈ validOptionNames) then Some (settings !!! k) else acc !! k.
Proof.
  revert acc. induction keys as [|key rest IH]; intros acc; cbn [foldl].
  - rewrite decide_False; [reflexivity|].
    intros [H _]. apply elem_of_nil in H. exact H.
  - rewrite IH. rewrite indexOf_found.
    destruct (decide (k ∈ rest ∧ k ∈ validOptionNames)) as [[Hr Hv]|Hn].
    + rewrite decide_True; [reflexivity | split; [right|]; assumption].
    + destruct (decide (key ∈ validOptionNames)) as [Hkv|Hkv].
      * rewrite bool_decide_eq_true_2 by assumption.
        destruct (decide (key = k)) as [->|Hne].
        -- rewrite lookup_insert_eq.
           rewrite decide_True; [reflexivity | split; [left | assumption]].
        -- rewrite lookup_insert_ne by assumption.
           rewrite decide_False; [reflexivity|].
           intros [Hk Hv]. apply elem_of_cons in Hk as [Hk|Hk]; [congruence|].
           apply Hn. split; assumption.
      * rewrite bool_decide_eq_false_2 by assumption.
        rewrite decide_False; [reflexivity|].
        intros [Hk Hv]. apply elem_of_cons in Hk as [Hk|Hk]; [congruence|].
        apply Hn. split; assumption.
Qed.

(** The options the client is built from are the settings restricted to
    the recognised names. *)
Lemma validOptions_lookup (settings : gmap string value) option :
  validOptions settings !! option
  = if decide (option ∈ validOptionNames) then settings !! option else None.
Proof.
  unfold validOptions. rewrite validOptions_fold. rewrite lookup_empty.
  unfold Object_keys.
  destruct (decide (option ∈ validOptionNames)) as [Hv|Hv].
  - destruct (settings !! option) as [v|] eqn:Hl.
    + rewrite decide_True.
      * rewrite (lookup_total_correct settings option v Hl). reflexivity.
      * split; [|assumption]. apply list_elem_of_fmap.
        exists (option, v). split; [reflexivity|]. apply elem_of_map_to_list, Hl.
    + rewrite decide_False; [reflexivity|]. intros [Hin _].
      apply list_elem_of_fmap in Hin as [[k v] [-> Hin]].
      apply elem_of_map_to_list in Hin. simpl in Hl. congruence.
  - rewrite decide_False; [reflexivity|]. intros [_ H]. contradiction.
Qed.

Lemma connect_absent host self ds callback :
  client self = None → dataSource self = Some ds → connecting ds = false →
  ∃ rest, trace (connect host self callback)
          = Construct (validOptions (settings self)) :: rest
          ∧ ∀ o, Construct o ∉ rest.
Proof.
  intros Hc Hd Hn. unfold connect. rewrite Hc, Hd, Hn.
  destruct (minio_Client host _) as [c|e].
  - destruct (setupDataAccessObject _) as [self' [t|e]]; [destruct callback|];
      cbn [trace]; eexists; (split; [reflexivity|]); intros o; not_listed.
  - cbn [trace]. eexists. split; [reflexivity|]. intros o; not_listed.
Qed.

(** C3.  Once the client handle exists, [connect] leaves the connector as it
    is, constructs nothing, and schedules one function for the next tick;
    run then, it calls the callback with [null] and the handle the
    connector already holds.  The same holds of every further call, the
    connector being unchanged. *)
Theorem connect_ready_is_idempotent host self c callback :
  client self = Some c →
  connect host self callback
  = {| after := self; result := Normal (); ticks := [ReportClient callback];
       trace := [] |}
  ∧ (∀ f, callback = VFun f →
       run_task (ReportClient callback) (after (connect host self callback))
       = (Normal [Invoke f VNull (Some c)], []))
  ∧ connect host (after (connect host self callback)) callback
    = connect host self callback.
Proof.
  intros Hc. unfold connect. rewrite Hc. cbn [after]. rewrite Hc.
  repeat split. intros f ->. cbn [run_task truthy]. rewrite Hc. reflexivity.
Qed.

Lemma connect_ready_is_idempotent_witness :
  let c := succeeding_client VUndefined in
  connect (sample_host (Throw InvalidEndpoint)) (ready_connector c) (VFun 1)
  = {| after := ready_connector c; result := Normal ();
       ticks := [ReportClient (VFun 1)]; trace := [] |}.
Proof.
  intros c.
  apply (connect_ready_is_idempotent (sample_host (Throw InvalidEndpoint))
           (ready_connector c) c (VFun 1)).
  reflexivity.
Defined.

(** In the Absent state the connector ends up holding what
    [new minio.Client] makes of the filtered settings, and [connect] throws
    what it throws. *)
Lemma connect_absent_client host self ds callback :
  client self = None → dataSource self = Some ds → connecting ds = false →
  client (after (connect host self callback))
  = match minio_Client host (validOptions (settings self)) with
    | Normal c => Some c
    | Throw _ => None
    end
  ∧ ∀ e, minio_Client host (validOptions (settings self)) = Throw e →
         result (connect host self callback) = Throw e.
Proof.
  intros Hc Hd Hn. split.
  - unfold connect. rewrite Hc, Hd, Hn. cbn [settings set_connector].
    destruct (minio_Client host _) as [c|e]; [|exact Hc].
    unfold setupDataAccessObject.
    cbn [dataSource set_DataAccessObject set_client set_connector]. rewrite Hd.
    destruct callback; reflexivity.
  - intros e He. unfold connect. rewrite Hc, Hd, Hn. cbn [settings set_connector].
    rewrite He. reflexivity.
Qed.



(** C4, as the code has it.  When the construction of the client throws,
    the error [connect] reports is the cause itself, the client field stays
    unset, and a later [connect] constructs again from the same options. *)
Theorem connect_construction_failure host self ds callback e :
  client self = None → dataSource self = Some ds → connecting ds = false →
  minio_Client host (validOptions (settings self)) = Throw e →
  reported_error (connect host self callback) = Some e
  ∧ client (after (connect host self callback)) = None
  ∧ ∀ host' callback',
      ∃ rest, trace (connect host' (after (connect host self callback)) callback')
              = Construct (validOptions (settings self)) :: rest.
Proof.
  intros Hc Hd Hn He.
  assert (connect host self callback
          = {| after := set_connector self; result := Throw e; ticks := [];
               trace := [Construct (validOptions (settings self))] |}) as E.
  { unfold connect. rewrite Hc, Hd, Hn. cbn [settings set_connector].
    rewrite He. reflexivity. }
  rewrite E. cbn [after]. repeat split.
  - exact Hc.
  - intros host' callback'.
    destruct (connect_absent host' (set_connector self) ds callback')
      as (rest & Ht & _); [assumption..|].
    exists rest. exact Ht.
Qed.

Lemma connect_construction_failure_witness :
  let host := sample_host (Throw InvalidEndpoint) in
  let self := set_dataSource (sample_dataSource ∅) (new_MinioDB 7 ∅) in
  reported_error (connect host self (VFun 1)) = Some InvalidEndpoint
  ∧ client (after (connect host self (VFun 1))) = None.
Proof.
  intros host self.
  destruct (connect_construction_failure host self (sample_dataSource ∅) (VFun 1)
              InvalidEndpoint eq_refl eq_refl eq_refl eq_refl) as (H1 & H2 & _).
  split; assumption.
Defined.

(** C4 as stated fails: the exception of the constructor leaves [connect]
    as it was thrown, an [InvalidEndpointError] and no [ConnectionError];
    the callback is neither called nor scheduled. *)
Lemma connect_failure_is_thrown :
  let host := sample_host (Throw InvalidEndpoint) in
  let self := set_dataSource (sample_dataSource ∅) (new_MinioDB 7 ∅) in
  let s := connect host self (VFun 1) in
  result s = Throw InvalidEndpoint
  ∧ ticks s = []
  ∧ (∀ f err data, Invoke f err data ∉ trace s)
  ∧ ¬ (∃ message, result s = Throw (VError "ConnectionError" message))
  ∧ result s ≠ Normal ().
Proof.
  cbn zeta. unfold connect. cbn [client dataSource set_dataSource new_MinioDB
    connecting sample_dataSource minio_Client sample_host result ticks trace].
  repeat split.
  - intros f err data. not_listed.
  - intros [message H]. discriminate H.
  - discriminate.
Qed.

(** ** initialize *)

(** C10.  Given a callback: with a truthy [lazyConnect] setting,
    [initialize] schedules the callback for the next tick and does nothing
    else, so no client is constructed and the new connector holds none;
    otherwise it is the call [connect(callback)] on the new connector. *)
Theorem initialize_lazyConnect host fresh ds callback :
  truthy callback = true →
  (truthy (ds_settings ds !!! "lazyConnect") = true →
     initialize host fresh ds callback
     = {| after := set_dataSource ds (new_MinioDB fresh (ds_settings ds));
          result := Normal (); ticks := [CallBack callback]; trace := [] |}
     ∧ client (after (initialize host fresh ds callback)) = None
     ∧ ∀ f, callback = VFun f →
            run_task (CallBack callback) (after (initialize host fresh ds callback))
            = (Normal [Invoke0 f], []))
  ∧ (truthy (ds_settings ds !!! "lazyConnect") = false →
     initialize host fresh ds callback
     = connect host (set_dataSource ds (new_MinioDB fresh (ds_settings ds))) callback).
Proof.
  intros Hcb. unfold initialize. rewrite Hcb. split; intros Hl; rewrite Hl.
  - repeat split. intros f ->. reflexivity.
  - reflexivity.
Qed.

Lemma initialize_lazyConnect_witness :
  let ds := sample_dataSource (<["lazyConnect" := VBool true]> sample_settings) in
  ticks (initialize (sample_host (Throw InvalidEndpoint)) 7 ds (VFun 1)) = [CallBack (VFun 1)]
  ∧ trace (initialize (sample_host (Throw InvalidEndpoint)) 7 ds (VFun 1)) = [].
Proof.
  intros ds.
  destruct (initialize_lazyConnect (sample_host (Throw InvalidEndpoint)) 7 ds (VFun 1)
              eq_refl) as [H _].
  destruct H as [E _]; [vm_compute; reflexivity|].
  rewrite E. split; reflexivity.
Defined.

(** ** The operation table *)

Lemma assign_fold_lookup self_id ms (t : gmap string bound) name b :
  foldl (assign self_id) t ms !! name = Some b →
  (∃ m, m ∈ ms ∧ name = operation_name m ∧ b = Bind m self_id)
  ∨ (t !! name = Some b ∧ ∀ m, m ∈ ms → name ≠ operation_name m).
Proof.
  revert t. induction ms as [|m rest IH]; intros t H; cbn [foldl] in H.
  - right. split; [exact H|]. intros m Hm. apply elem_of_nil in Hm. contradiction.
  - destruct (IH _ H) as [(m' & Hin & Hn & Hb) | [Hl Hout]].
    + left. exists m'. split; [right; exact Hin | split; assumption].
    + unfold assign in Hl.
      destruct (decide (operation_name m = name)) as [E|E].
      * rewrite <- E in Hl. rewrite lookup_insert_eq in Hl. injection Hl as <-.
        left. exists m. split; [left | split; [symmetry; exact E | reflexivity]].
      * rewrite lookup_insert_ne in Hl by exact E.
        right. split; [exact Hl|]. intros m' Hm'.
        apply elem_of_cons in Hm' as [->|Hm']; [congruence | apply Hout, Hm'].
Qed.

Lemma assign_fold_is_Some self_id ms (t : gmap string bound) m :
  m ∈ ms → is_Some (foldl (assign self_id) t ms !! operation_name m).
Proof.
  revert t. induction ms as [|m' rest IH] using rev_ind; intros t Hm.
  - apply elem_of_nil in Hm. contradiction.
  - rewrite foldl_app. cbn [foldl]. unfold assign at 1.
    destruct (decide (operation_name m' = operation_name m)) as [E|E].
    + rewrite E, lookup_insert_eq. eexists; reflexivity.
    + rewrite lookup_insert_ne by exact E.
      apply elem_of_app in Hm as [Hm|Hm]; [apply IH, Hm|].
      apply list_elem_of_singleton in Hm. congruence.
Qed.

Lemma setupDataAccessObject_table self :
  DataAccessObject (setupDataAccessObject self).1
  = foldl (assign (id self)) (DataAccessObject self) published.
Proof.
  unfold setupDataAccessObject.
  cbn [dataSource set_DataAccessObject].
  destruct (dataSource self); reflexivity.
Qed.

(** C9.  After [setupDataAccessObject], the table has no entry named
    [setObjectRetention], [setObjectLegalHold], [listObjectsV2WithMetadata],
    [removeAllBucketNotification] or [listenBucketNotification]; every entry
    it has is the prototype method of that name bound to the connector, and
    every method the source assigns has its entry. *)
Theorem published_operation_table self :
  only_published (DataAccessObject self) →
  let table := DataAccessObject (setupDataAccessObject self).1 in
  table !! "setObjectRetention" = None
  ∧ table !! "setObjectLegalHold" = None
  ∧ table !! "listObjectsV2WithMetadata" = None
  ∧ table !! "removeAllBucketNotification" = None
  ∧ table !! "listenBucketNotification" = None
  ∧ (∀ name b, table !! name = Some b →
       ∃ m, m ∈ published ∧ name = operation_name m ∧ b = Bind m (id self))
  ∧ (∀ m, m ∈ published → is_Some (table !! operation_name m))
  ∧ only_published table.
Proof.
  intros Hpub table. subst table. rewrite setupDataAccessObject_table.
  assert (∀ name b,
            foldl (assign (id self)) (DataAccessObject self) published !! name = Some b →
            ∃ m, m ∈ published ∧ name = operation_name m ∧ b = Bind m (id self)) as Hentry.
  { intros name b H.
    destruct (assign_fold_lookup _ _ _ _ _ H) as [Hm | [Hl Hout]]; [exact Hm|].
    exfalso. destruct (Hpub name) as (m & Hm & ->); [eexists; exact Hl|].
    exact (Hout m Hm eq_refl). }
  assert (∀ name, ¬ (∃ m, m ∈ published ∧ name = operation_name m) →
            foldl (assign (id self)) (DataAccessObject self) published !! name = None)
    as Habsent.
  { intros name Hn.
    destruct (foldl _ _ _ !! name) as [b|] eqn:E; [|reflexivity].
    exfalso. apply Hn. destruct (Hentry name b E) as (m & Hm & Hname & _).
    exists m. split; assumption. }
  repeat split.
  - apply Habsent. not_published.
  - apply Habsent. not_published.
  - apply Habsent. not_published.
  - apply Habsent. not_published.
  - apply Habsent. not_published.
  - exact Hentry.
  - intros m Hm. apply assign_fold_is_Some, Hm.
  - intros name [b Hb]. destruct (Hentry name b Hb) as (m & Hm & Hname & _).
    exists m. split; assumption.
Qed.

Lemma published_operation_table_witness :
  let self := new_MinioDB 7 sample_settings in
  DataAccessObject (setupDataAccessObject self).1 !! "setObjectRetention" = None
  ∧ is_Some (DataAccessObject (setupDataAccessObject self).1 !! "makeBucket").
Proof.
  intros self.
  destruct (published_operation_table self) as (H1 & _ & _ & _ & _ & _ & H7 & _).
  - intros name [b Hb]. cbn [DataAccessObject self new_MinioDB] in Hb.
    rewrite lookup_empty in Hb. discriminate Hb.
  - split; [exact H1|]. apply (H7 m_makeBucket). repeat constructor.
Defined.


(** ** Further properties of connect *)

Lemma setupDataAccessObject_attached self ds :
  dataSource self = Some ds →
  setupDataAccessObject self
  = (set_dataSource
       {| ds_settings := ds_settings ds; connecting := connecting ds;
          once_connected := once_connected ds;
          ds_DataAccessObject :=
            Some (foldl (assign (id self)) (DataAccessObject self) published);
          mixed := mixed ds ++ _models self |}
       (set_DataAccessObject
          (foldl (assign (id self)) (DataAccessObject self) published) self),
     Normal (foldl (assign (id self)) (DataAccessObject self) published)).
Proof.
  intros Hd. unfold setupDataAccessObject.
  cbn [dataSource set_DataAccessObject _models]. rewrite Hd. reflexivity.
Qed.

Lemma setupDataAccessObject_keeps self :
  id (setupDataAccessObject self).1 = id self
  ∧ settings (setupDataAccessObject self).1 = settings self
  ∧ client (setupDataAccessObject self).1 = client self
  ∧ connector (setupDataAccessObject self).1 = connector self
  ∧ _models (setupDataAccessObject self).1 = _models self.
Proof.
  unfold setupDataAccessObject. cbn [dataSource set_DataAccessObject].
  destruct (dataSource self); repeat split.
Qed.

(** A successful [connect] from the Absent state, in full. *)
Lemma connect_absent_run host self ds callback c :
  client self = None → dataSource self = Some ds → connecting ds = false →
  minio_Client host (validOptions (settings self)) = Normal c →
  connect host self callback
  = {| after := (setupDataAccessObject (set_client c (set_connector self))).1;
       result := match callback with
                 | VFun _ => Normal ()
                 | _ => Throw (TypeError "callback is not a function")
                 end;
       ticks := [];
       trace := Construct (validOptions (settings self))
                :: match callback with
                   | VFun f => [Invoke f VNull (Some c)]
                   | _ => []
                   end |}.
Proof.
  intros Hc Hd Hn He. unfold connect. rewrite Hc, Hd, Hn.
  cbn [settings set_connector]. rewrite He.
  rewrite (setupDataAccessObject_attached _ ds) by exact Hd.
  destruct callback; reflexivity.
Qed.

(** The property names of the prototype tell its methods apart. *)
Lemma operation_of_name_name m : operation_of_name (operation_name m) = Some m.
Proof. destruct m; reflexivity. Qed.

Lemma operation_name_inj m m' : operation_name m = operation_name m' → m = m'.
Proof.
  intros E. apply (f_equal operation_of_name) in E.
  rewrite !operation_of_name_name in E. injection E as ->. reflexivity.
Qed.


Lemma connect_same_connector host self callback :
  id (after (connect host self callback)) = id self
  ∧ settings (after (connect host self callback)) = settings self.
Proof.
  unfold connect. destruct (client self) as [c0|] eqn:Hc; [split; reflexivity|].
  destruct (dataSource self) as [ds|] eqn:Hd; [|split; reflexivity].
  destruct (connecting ds); [split; reflexivity|].
  cbn [settings set_connector]. destruct (minio_Client host _) as [c|e];
    [|split; reflexivity].
  rewrite (setupDataAccessObject_attached _ ds) by exact Hd.
  destruct callback; split; reflexivity.
Qed.

(** X1.  Whatever branch it takes, [connect] keeps the connector's identity,
    settings and models, keeps a data source attached, and never replaces or
    drops a client handle the connector already holds. *)
Theorem connect_keeps host self callback :
  id (after (connect host self callback)) = id self
  ∧ settings (after (connect host self callback)) = settings self
  ∧ _models (after (connect host self callback)) = _models self
  ∧ (is_Some (dataSource self) →
     is_Some (dataSource (after (connect host self callback))))
  ∧ ∀ c, client self = Some c → client (after (connect host self callback)) = Some c.
Proof.
  unfold connect. destruct (client self) as [c0|] eqn:Hc; [connect_kept|].
  destruct (dataSource self) as [ds|] eqn:Hd; [|connect_kept].
  destruct (connecting ds); [connect_kept|].
  cbn [settings set_connector]. destruct (minio_Client host _) as [c|e]; [|connect_kept].
  rewrite (setupDataAccessObject_attached _ ds) by exact Hd.
  destruct callback; connect_kept.
Qed.

(** X2.  From the Absent state, with a constructor that succeeds, [connect]
    called without a function as callback still constructs and stores the
    client and publishes the table to the data source, and only then throws
    a [TypeError]; the connector is Ready.  A further [connect] with no
    callback constructs nothing, returns normally, and its next-tick
    function does nothing. *)
Theorem connect_without_callback host self ds callback c :
  client self = None → dataSource self = Some ds → connecting ds = false →
  minio_Client host (validOptions (settings self)) = Normal c →
  (∀ f, callback ≠ VFun f) →
  result (connect host self callback) = Throw (TypeError "callback is not a function")
  ∧ trace (connect host self callback) = [Construct (validOptions (settings self))]
  ∧ client (after (connect host self callback)) = Some c
  ∧ (∃ ds', dataSource (after (connect host self callback)) = Some ds'
            ∧ ds_DataAccessObject ds'
              = Some (DataAccessObject (after (connect host self callback))))
  ∧ (truthy callback = false →
     ∀ host',
       connect host' (after (connect host self callback)) callback
       = {| after := after (connect host self callback); result := Normal ();
            ticks := [ReportClient callback]; trace := [] |}
       ∧ run_task (ReportClient callback) (after (connect host self callback))
         = (Normal [], [])).
Proof.
  intros Hc Hd Hn He Hcb.
  rewrite (connect_absent_run host self ds callback c) by assumption.
  cbn [result trace after].
  destruct (setupDataAccessObject_keeps (set_client c (set_connector self)))
    as (_ & _ & Hcl & _ & _).
  cbn [client set_client] in Hcl.
  split; [destruct callback; try reflexivity; exfalso; exact (Hcb _ eq_refl)|].
  split; [destruct callback; try reflexivity; exfalso; exact (Hcb _ eq_refl)|].
  split; [exact Hcl|]. split.
  - rewrite (setupDataAccessObject_attached _ ds) by exact Hd.
    eexists. split; reflexivity.
  - intros Hf host'. unfold connect at 1. rewrite Hcl. split; [reflexivity|].
    cbn [run_task]. rewrite Hf. reflexivity.
Qed.

Lemma connect_without_callback_witness :
  let c := succeeding_client VUndefined in
  let host := sample_host (Normal c) in
  let self := set_dataSource (sample_dataSource ∅) (new_MinioDB 7 ∅) in
  result (connect host self VUndefined) = Throw (TypeError "callback is not a function")
  ∧ client (after (connect host self VUndefined)) = Some c.
Proof.
  intros c host self.
  destruct (connect_without_callback host self (sample_dataSource ∅) VUndefined c
              eq_refl eq_refl eq_refl eq_refl) as (H1 & _ & H3 & _).
  - intros f. discriminate.
  - split; assumption.
Defined.

Lemma connect_ready host self c callback :
  client self = Some c →
  connect host self callback
  = {| after := self; result := Normal (); ticks := [ReportClient callback];
       trace := [] |}.
Proof. intros Hc. unfold connect. rewrite Hc. reflexivity. Qed.

Lemma connect_all_ready host self c callbacks :
  client self = Some c → connect_all host self callbacks = (self, []).
Proof.
  intros Hc. induction callbacks as [|callback rest IH]; [reflexivity|].
  cbn [connect_all].
  rewrite (connect_ready host self c callback Hc).
  cbn [after trace]. rewrite IH. reflexivity.
Qed.

(** X3.  Over any number of sequential [connect] calls, whatever the
    callbacks, a connector whose constructor succeeds builds exactly one
    client, at the first call and from the filtered settings, and ends up
    holding it; a connector that is Ready builds none and is left as it
    was. *)
Theorem connect_all_constructs_once host self ds c callback callbacks :
  client self = None → dataSource self = Some ds → connecting ds = false →
  minio_Client host (validOptions (settings self)) = Normal c →
  constructions (connect_all host self (callback :: callbacks)).2
  = [validOptions (settings self)]
  ∧ client (connect_all host self (callback :: callbacks)).1 = Some c
  ∧ ∀ more, connect_all host (connect_all host self (callback :: callbacks)).1 more
            = ((connect_all host self (callback :: callbacks)).1, []).
Proof.
  intros Hc Hd Hn He. cbn [connect_all].
  rewrite (connect_absent_run host self ds callback c) by assumption.
  cbn [after trace].
  destruct (setupDataAccessObject_keeps (set_client c (set_connector self)))
    as (_ & _ & Hcl & _ & _).
  cbn [client set_client] in Hcl.
  rewrite (connect_all_ready host _ c callbacks Hcl). cbn [fst snd].
  split; [|split].
  - rewrite app_nil_r. destruct callback; reflexivity.
  - exact Hcl.
  - intros more. apply (connect_all_ready host _ c more Hcl).
Qed.

Lemma connect_all_constructs_once_witness :
  let c := succeeding_client VUndefined in
  let host := sample_host (Normal c) in
  let self := set_dataSource (sample_dataSource ∅) (new_MinioDB 7 ∅) in
  constructions (connect_all host self [VFun 1; VUndefined; VFun 2]).2 = [validOptions ∅]
  ∧ client (connect_all host self [VFun 1; VUndefined; VFun 2]).1 = Some c.
Proof.
  intros c host self.
  destruct (connect_all_constructs_once host self (sample_dataSource ∅) c
              (VFun 1) [VUndefined; VFun 2] eq_refl eq_refl eq_refl eq_refl)
    as (H1 & H2 & _).
  split; assumption.
Defined.



(** X5.  Eagerly or lazily, the first client of an initialized connector is
    what [new minio.Client] makes of the data source's settings restricted
    to the recognised names: with [lazyConnect] falsy, [initialize] itself
    constructs it and the connector holds it; with [lazyConnect] truthy,
    [initialize] constructs nothing and the first [connect] afterwards does.
    In both cases the connector carries the data source's settings. *)
Theorem initialize_then_connect host fresh ds callback :
  truthy callback = true → connecting ds = false →
  settings (after (initialize host fresh ds callback)) = ds_settings ds
  ∧ id (after (initialize host fresh ds callback)) = fresh
  ∧ (truthy (ds_settings ds !!! "lazyConnect") = false →
     (∃ rest, trace (initialize host fresh ds callback)
              = Construct (validOptions (ds_settings ds)) :: rest
              ∧ ∀ o, Construct o ∉ rest)
     ∧ client (after (initialize host fresh ds callback))
       = match minio_Client host (validOptions (ds_settings ds)) with
         | Normal c => Some c
         | Throw _ => None
         end)
  ∧ (truthy (ds_settings ds !!! "lazyConnect") = true →
     trace (initialize host fresh ds callback) = []
     ∧ client (after (initialize host fresh ds callback)) = None
     ∧ ∀ host' callback',
         (∃ rest,
            trace (connect host' (after (initialize host fresh ds callback)) callback')
            = Construct (validOptions (ds_settings ds)) :: rest
            ∧ ∀ o, Construct o ∉ rest)
         ∧ client (after (connect host' (after (initialize host fresh ds callback))
                            callback'))
           = match minio_Client host' (validOptions (ds_settings ds)) with
             | Normal c => Some c
             | Throw _ => None
             end).
Proof.
  intros Hcb Hn. unfold initialize. rewrite Hcb.
  destruct (truthy (ds_settings ds !!! "lazyConnect")).
  - cbn [after trace]. repeat split; try discriminate.
    + apply (connect_absent host' (set_dataSource ds (new_MinioDB fresh (ds_settings ds)))
               ds callback'); [reflexivity | reflexivity | exact Hn].
    + apply (connect_absent_client host'
               (set_dataSource ds (new_MinioDB fresh (ds_settings ds))) ds callback');
        [reflexivity | reflexivity | exact Hn].
  - destruct (connect_same_connector host
                (set_dataSource ds (new_MinioDB fresh (ds_settings ds))) callback)
      as (Hid & Hs).
    repeat split; try discriminate; try assumption.
    + apply (connect_absent host (set_dataSource ds (new_MinioDB fresh (ds_settings ds)))
               ds callback); [reflexivity | reflexivity | exact Hn].
    + apply (connect_absent_client host
               (set_dataSource ds (new_MinioDB fresh (ds_settings ds))) ds callback);
        [reflexivity | reflexivity | exact Hn].
Qed.

Lemma initialize_then_connect_witness :
  let ds := sample_dataSource (<["lazyConnect" := VBool true]> ∅) in
  trace (initialize (sample_host (Throw InvalidEndpoint)) 7 ds (VFun 1)) = [].
Proof.
  intros ds.
  destruct (initialize_then_connect (sample_host (Throw InvalidEndpoint)) 7 ds (VFun 1)
              eq_refl eq_refl) as (_ & _ & _ & H).
  destruct H as [E _]; [vm_compute; reflexivity | exact E].
Defined.

(** ** Further properties of the operation table *)

Lemma unpublished_not_published m :
  bool_decide (m ∈ unpublished) = negb (bool_decide (m ∈ published)).
Proof. destruct m; reflexivity. Qed.

Lemma assign_fold_published self_id (t : gmap string bound) m :
  m ∈ published →
  foldl (assign self_id) t published !! operation_name m = Some (Bind m self_id).
Proof.
  intros Hm.
  destruct (assign_fold_is_Some self_id published t m Hm) as [b Hb].
  destruct (assign_fold_lookup _ _ _ _ _ Hb) as [(m' & _ & Hn & ->) | [_ Hout]].
  - apply operation_name_inj in Hn. subst m'. exact Hb.
  - exfalso. exact (Hout m Hm eq_refl).
Qed.

Lemma assign_fold_id self_id ms (t : gmap string bound) :
  (∀ m, m ∈ ms → t !! operation_name m = Some (Bind m self_id)) →
  foldl (assign self_id) t ms = t.
Proof.
  induction ms as [|m rest IH]; intros H; [reflexivity|].
  cbn [foldl]. unfold assign at 2. rewrite insert_id by (apply H; left).
  apply IH. intros m' Hm'. apply H. right. exact Hm'.
Qed.

(** X6.  After [setupDataAccessObject] the table is known at every
    prototype method's name: none for the five methods the source does not
    assign, and for every other method that very method bound to the
    connector.  This holds with or without a data source. *)
Theorem table_of_operations self m :
  only_published (DataAccessObject self) →
  DataAccessObject (setupDataAccessObject self).1 !! operation_name m
  = if decide (m ∈ unpublished) then None else Some (Bind m (id self)).
Proof.
  intros Hpub. rewrite setupDataAccessObject_table.
  pose proof (unpublished_not_published m) as Hu.
  destruct (decide (m ∈ unpublished)) as [Hin|Hout].
  - rewrite bool_decide_eq_true_2 in Hu by exact Hin.
    symmetry in Hu. apply negb_true_iff, bool_decide_eq_false in Hu.
    destruct (foldl _ _ _ !! operation_name m) as [b|] eqn:E; [|reflexivity].
    exfalso. apply Hu.
    destruct (assign_fold_lookup _ _ _ _ _ E) as [(m' & Hm' & Hn & _) | [Hl _]].
    + apply operation_name_inj in Hn. subst m'. exact Hm'.
    + destruct (Hpub (operation_name m)) as (m' & Hm' & Hn); [eexists; exact Hl|].
      apply operation_name_inj in Hn. subst m'. exact Hm'.
  - rewrite bool_decide_eq_false_2 in Hu by exact Hout.
    symmetry in Hu. apply negb_false_iff, bool_decide_eq_true in Hu.
    apply assign_fold_published, Hu.
Qed.

Lemma table_of_operations_witness :
  DataAccessObject (setupDataAccessObject (new_MinioDB 7 ∅)).1 !! "getObject"
  = Some (Bind m_getObject 7)
  ∧ DataAccessObject (setupDataAccessObject (new_MinioDB 7 ∅)).1 !! "setObjectLegalHold"
    = None.
Proof.
  assert (only_published (DataAccessObject (new_MinioDB 7 ∅))) as H.
  { intros name [b Hb]. cbn [DataAccessObject new_MinioDB] in Hb.
    rewrite lookup_empty in Hb. discriminate Hb. }
  split.
  - exact (table_of_operations (new_MinioDB 7 ∅) m_getObject H).
  - exact (table_of_operations (new_MinioDB 7 ∅) m_setObjectLegalHold H).
Defined.

(** X7.  [setupDataAccessObject] is idempotent on the table: a second run
    leaves every entry as the first made it.  With a data source attached
    each run publishes the connector's table to it and passes every model
    to [mixin] once more; without one the run throws, the table having been
    assigned all the same. *)
Theorem setupDataAccessObject_again self :
  DataAccessObject (setupDataAccessObject (setupDataAccessObject self).1).1
  = DataAccessObject (setupDataAccessObject self).1
  ∧ (∀ ds, dataSource self = Some ds →
       ∃ ds1 ds2,
         dataSource (setupDataAccessObject self).1 = Some ds1
         ∧ ds_DataAccessObject ds1 = Some (DataAccessObject (setupDataAccessObject self).1)
         ∧ mixed ds1 = (mixed ds ++ _models self)%list
         ∧ dataSource (setupDataAccessObject (setupDataAccessObject self).1).1 = Some ds2
         ∧ mixed ds2 = (mixed ds ++ _models self ++ _models self)%list)
  ∧ (dataSource self = None →
       (∃ e, (setupDataAccessObject self).2 = Throw e)
       ∧ ∀ m, m ∈ published →
           DataAccessObject (setupDataAccessObject self).1 !! operation_name m
           = Some (Bind m (id self))).
Proof.
  split; [|split].
  - rewrite (setupDataAccessObject_table (setupDataAccessObject self).1).
    destruct (setupDataAccessObject_keeps self) as (Hid & _).
    rewrite Hid, setupDataAccessObject_table.
    apply assign_fold_id. intros m Hm.
    apply (assign_fold_published (id self) (DataAccessObject self) m Hm).
  - intros ds Hd. rewrite (setupDataAccessObject_attached self ds Hd). cbn [fst].
    erewrite setupDataAccessObject_attached by reflexivity. cbn [fst].
    do 2 eexists. split; [reflexivity|]. split; [reflexivity|].
    split; [reflexivity|]. split; [reflexivity|].
    cbn [mixed _models set_DataAccessObject set_dataSource].
    rewrite <- app_assoc. reflexivity.
  - intros Hd. split.
    + unfold setupDataAccessObject. cbn [dataSource set_DataAccessObject].
      rewrite Hd. eexists. reflexivity.
    + intros m Hm. rewrite setupDataAccessObject_table.
      apply assign_fold_published, Hm.
Qed.

(** ** Further properties of the options *)

(** X8.  The options the client is built from are part of the settings:
    they never hold a key or a value the settings do not.  Filtering them
    again changes nothing, and settings that use recognised names only are
    passed on whole. *)
Theorem validOptions_submap (settings : gmap string value) :
  validOptions settings ⊆ settings
  ∧ validOptions (validOptions settings) = validOptions settings
  ∧ ((∀ option, is_Some (settings !! option) → option ∈ validOptionNames) →
     validOptions settings = settings).
Proof.
  split; [|split].
  - apply map_subseteq_spec. intros k v. rewrite validOptions_lookup.
    destruct (decide _); [tauto | discriminate].
  - apply map_eq. intros k. rewrite !validOptions_lookup.
    destruct (decide _); reflexivity.
  - intros H. apply map_eq. intros k. rewrite validOptions_lookup.
    destruct (decide (k ∈ validOptionNames)) as [_|Hn]; [reflexivity|].
    destruct (settings !! k) as [v|] eqn:E; [|reflexivity].
    exfalso. apply Hn, H. rewrite E. eexists. reflexivity.
Qed.


(** ** Further properties of the forwarding methods *)

Lemma forward_absent self name cargs k :
  client self = None →
  forward self name cargs k
  = {| returned := Normal (RetPromise
                     (Rejected (TypeError "Cannot read properties of undefined")));
       sent := []; invoked := []; unreturned := None; called_by_client := [] |}.
Proof. intros Hc. unfold forward, new_Promise, client_call. rewrite Hc. reflexivity. Qed.

Lemma forward_stream_absent self name cargs :
  client self = None →
  forward_stream self name cargs
  = {| returned := Normal (RetPromise
                     (Rejected (TypeError "Cannot read properties of undefined")));
       sent := []; invoked := []; unreturned := None; called_by_client := [] |}.
Proof.
  intros Hc. unfold forward_stream, new_Promise, client_call. rewrite Hc. reflexivity.
Qed.


(** X9.  On a connector that holds no client (before [connect], or after a
    failed one) no method reaches a client: the methods that return their
    promise return it rejected with the [TypeError] of reading
    [self.client], [getBucketVersioning] and [presignedPostPolicy] throw
    that error to the caller, and [setBucketVersioning] returns [undefined]
    as always. *)
Theorem methods_without_client host m self args :
  client self = None →
  sent (prototype host m self args) = []
  ∧ invoked (prototype host m self args) = []
  ∧ returned (prototype host m self args)
    = if decide (m ∈ [m_getBucketVersioning; m_presignedPostPolicy])
      then Throw (TypeError "Cannot read properties of undefined")
      else if decide (m = m_setBucketVersioning) then Normal RetUndefined
      else Normal (RetPromise
                     (Rejected (TypeError "Cannot read properties of undefined"))).
Proof.
  intros Hc.
  destruct m; simpl;
    try (unfold makeBucket; destruct (is_undefined _));
    first [ rewrite forward_absent by exact Hc; repeat split
          | rewrite forward_stream_absent by exact Hc; repeat split
          | unfold getBucketVersioning, client_call; rewrite Hc; repeat split
          | unfold setBucketVersioning, client_call; rewrite Hc; repeat split
          | unfold presignedPostPolicy; rewrite Hc; repeat split
          | unfold setBucketPolicy; rewrite Hc; repeat split ].
Qed.

Lemma methods_without_client_witness :
  returned (prototype (sample_host (Throw InvalidEndpoint)) m_getObject
              (new_MinioDB 7 ∅) [VStr "test"; VStr "o"])
  = Normal (RetPromise (Rejected (TypeError "Cannot read properties of undefined"))).
Proof.
  exact (proj2 (proj2 (methods_without_client (sample_host (Throw InvalidEndpoint))
                         m_getObject (new_MinioDB 7 ∅) [VStr "test"; VStr "o"] eq_refl))).
Defined.

(** X10.  The promise a method returns depends on the client's reply only
    through the first thing the reply reports: two clients whose replies to
    the method's request agree there give the same promise, whatever
    completions or exception follow.  In particular a second invocation of
    the completion callback never changes the outcome. *)
Theorem first_report_decides host m self1 self2 c1 c2 args rq :
  m ≠ m_getBucketVersioning → m ≠ m_setBucketVersioning →
  client self1 = Some c1 → client self2 = Some c2 →
  sent (prototype host m self1 args) = [rq] →
  sent (prototype host m self2 args) = [rq] →
  verdict rq (respond c1 rq) = verdict rq (respond c2 rq) →
  returned (prototype host m self1 args) = returned (prototype host m self2 args).
Proof.
  intros Hg Hs H1 H2 Hs1 Hs2 Hv.
  rewrite (prototype_promise host m self1 c1 args rq) by assumption.
  rewrite (prototype_promise host m self2 c2 args rq) by assumption.
  cbn [returned]. rewrite Hv. reflexivity.
Qed.

(** A client that completes a call twice, first with [(null, v)] and then
    with the error [e], and finally throws nothing. *)
Lemma first_report_decides_witness :
  let twice :=
    {| respond := λ _, Reply [] (Normal VUndefined)
                         [(VNull, VStr "etag"); (NoSuchKey, VUndefined)] [];
       Policy := λ _, Normal () |} in
  returned (statObject (ready_connector twice) [VStr "test"; VStr "o"])
  = returned (statObject (ready_connector (succeeding_client (VStr "etag")))
                [VStr "test"; VStr "o"]).
Proof.
  intros twice.
  apply (first_report_decides (sample_host (Throw InvalidEndpoint)) m_statObject
           (ready_connector twice) (ready_connector (succeeding_client (VStr "etag")))
           twice (succeeding_client (VStr "etag")) [VStr "test"; VStr "o"]
           (Request "statObject" [VStr "test"; VStr "o"] true));
    try discriminate; reflexivity.
Defined.



(** X12.  [getBucketVersioning] passes on every completion the client
    makes, in order and without limit, to a function it is given as
    callback: one call per completion, [callback(err)] for a truthy [err] and
    [callback(null, data)] otherwise; unlike a promise, nothing stops at the
    first.  Without a callback it calls nothing.  With a callback that is
    truthy and no function it calls nothing either, and a completion during
    the client's call ends the call in a [TypeError].  In every other case
    it returns [undefined], or throws what the client's call throws. *)
Theorem getBucketVersioning_relays self c args :
  client self = Some c →
  let rq := Request "getBucketVersioning" [VObj [("Bucket", param 0 args)]] true in
  let of_call := match returns (respond c rq) with
                 | Normal _ => Normal RetUndefined
                 | Throw e => Throw e
                 end in
  sent (getBucketVersioning self args) = [rq]
  ∧ (∀ f, param 1 args = VFun f →
       invoked (getBucketVersioning self args)
       = relayed (VFun f) <$> (during (respond c rq) ++ later (respond c rq))%list
       ∧ returned (getBucketVersioning self args) = of_call)
  ∧ (truthy (param 1 args) = false →
       invoked (getBucketVersioning self args) = []
       ∧ returned (getBucketVersioning self args) = of_call)
  ∧ (truthy (param 1 args) = true → (∀ f, param 1 args ≠ VFun f) →
       invoked (getBucketVersioning self args) = []
       ∧ returned (getBucketVersioning self args)
         = match during (respond c rq) with
           | [] => of_call
           | _ :: _ => Throw (TypeError "callback is not a function")
           end).
Proof.
  intros Hc rq of_call. split; [|split; [|split]].
  - apply (getBucketVersioning_sent self c args Hc).
  - intros f Hf.
    destruct (getBucketVersioning_function self c args f Hc Hf) as [Hr Hi].
    split; assumption.
  - intros Ht.
    destruct (getBucketVersioning_no_callback self c args Hc Ht) as [Hr Hi].
    split; assumption.
  - intros Ht Hnf.
    destruct (getBucketVersioning_no_function self c args Hc Ht Hnf) as [Hr Hi].
    split; assumption.
Qed.

Lemma getBucketVersioning_relays_witness :
  let twice :=
    {| respond := λ _, Reply [(VNull, VStr "Enabled")] (Normal VUndefined)
                         [(NoSuchKey, VUndefined)] [];
       Policy := λ _, Normal () |} in
  invoked (getBucketVersioning (ready_connector twice) [VStr "test"; VFun 1])
  = [(VFun 1, [VNull; VStr "Enabled"]); (VFun 1, [NoSuchKey])]
  ∧ returned (getBucketVersioning (ready_connector twice) [VStr "test"; VStr "cb"])
    = Throw (TypeError "callback is not a function").
Proof.
  intros twice.
  destruct (getBucketVersioning_relays (ready_connector twice) twice
              [VStr "test"; VFun 1] eq_refl) as (_ & H & _).
  destruct (getBucketVersioning_relays (ready_connector twice) twice
              [VStr "test"; VStr "cb"] eq_refl) as (_ & _ & _ & H').
  split.
  - exact (proj1 (H 1 eq_refl)).
  - refine (proj2 (H' eq_refl _)). intros f. discriminate.
Defined.

(** X13.  [setBucketVersioning] gives its caller nothing to observe: it
    returns [undefined] and calls no callback, with or without a client.
    The client's verdict on the one call it makes, success or failure, ends
    in the promise the method made and kept. *)
Theorem setBucketVersioning_outcome_is_unreachable self args :
  returned (setBucketVersioning self args) = Normal RetUndefined
  ∧ invoked (setBucketVersioning self args) = []
  ∧ ∀ c, client self = Some c →
      let rq := Request "setBucketVersioning" [param 0 args; param 1 args] true in
      sent (setBucketVersioning self args) = [rq]
      ∧ unreturned (setBucketVersioning self args)
        = Some (promise_of (λ v, v) (verdict rq (respond c rq))).
Proof.
  repeat split.
  - unfold setBucketVersioning, client_call. rewrite H. reflexivity.
  - unfold setBucketVersioning. cbn [unreturned].
    rewrite (new_Promise_forward (λ v, v) resolve_data self c)
      by (exact resolve_data_standard || exact H).
    reflexivity.
Qed.

(** X14.  The promise of [removeObject] is never fulfilled with anything but
    [true]: what the client passes to the completion callback besides [err]
    is ignored. *)
Theorem removeObject_fulfils_with_true self args v :
  returned (removeObject self args) = Normal (RetPromise (Fulfilled v)) →
  v = VBool true.
Proof.
  unfold removeObject. destruct (client self) as [c|] eqn:Hc.
  - rewrite (forward_run (λ _, VBool true) resolve_true self c)
      by (exact resolve_true_standard || exact Hc).
    cbn [returned].
    destruct (verdict _ _) as [[e|x]|]; cbn [promise_of resolution]; intros H;
      [discriminate H | injection H as <-; reflexivity | discriminate H].
  - rewrite forward_absent by exact Hc. cbn [returned]. intros H. discriminate H.
Qed.

Lemma removeObject_fulfils_with_true_witness :
  returned (removeObject (ready_connector (succeeding_client (VStr "gone")))
              [VStr "test"; VStr "o"]) = Normal (RetPromise (Fulfilled (VBool true)))
  ∧ VBool true = VBool true.
Proof.
  split; [reflexivity|].
  exact (removeObject_fulfils_with_true
           (ready_connector (succeeding_client (VStr "gone")))
           [VStr "test"; VStr "o"] (VBool true) eq_refl).
Defined.



(** X16.  The policy [presignedPostPolicy] sends the client is made from
    the bucket name, the object name and the expiry alone: the
    [objectNamePrefix] parameter has no part in it. *)
Theorem presignedPostPolicy_ignores_prefix host self args args' rq rq' :
  param 0 args = param 0 args' → param 1 args = param 1 args' →
  param 3 args = param 3 args' →
  sent (presignedPostPolicy host self args) = [rq] →
  sent (presignedPostPolicy host self args') = [rq'] →
  rq = rq'.
Proof.
  intros H0 H1 H3. unfold presignedPostPolicy.
  destruct (client self) as [c|] eqn:Hc; [|discriminate].
  destruct (Policy c _); [|discriminate].
  destruct (Policy c _); [|discriminate].
  rewrite !(forward_sent self c) by exact Hc. rewrite H0, H1, H3.
  intros E E'. injection E as <-. injection E' as <-. reflexivity.
Qed.

Lemma presignedPostPolicy_ignores_prefix_witness :
  let self := ready_connector (succeeding_client VUndefined) in
  let host := sample_host (Throw InvalidEndpoint) in
  ∃ rq rq',
    sent (presignedPostPolicy host self [VStr "test"; VStr "o"; VStr "a/"; VNum 60]) = [rq]
    ∧ sent (presignedPostPolicy host self [VStr "test"; VStr "o"; VStr "b/"; VNum 60]) = [rq']
    ∧ rq = rq'.
Proof.
  intros self host. eexists. eexists.
  split; [reflexivity|]. split; [reflexivity|].
  apply (presignedPostPolicy_ignores_prefix host self
           [VStr "test"; VStr "o"; VStr "a/"; VNum 60]
           [VStr "test"; VStr "o"; VStr "b/"; VNum 60]);
    reflexivity.
Defined.
